(** * delete_default_cloudtrail: a shallow embedding and its properties

    The program under study is [src/delete_default_cloudtrail.py]: it
    assumes a role in a target AWS account, looks up the one CloudTrail
    trail whose name starts with a configured prefix and, unless it runs
    as a dry run, stops and deletes the trail, empties its S3 bucket and
    deletes the bucket.

    Layout: Python values and exceptions, the module-level configuration,
    account-id extraction, a state-and-trace monad for the boto3 calls, the
    functions of the module, a simulated AWS account, then the theorems. *)

From Stdlib Require Import String Ascii List Bool Arith Lia.
Import ListNotations.
Local Open Scope string_scope.
Local Open Scope list_scope.

(** ** Python values, messages and exceptions *)

(** A decoded JSON document, as the Lambda runtime hands it to the handler.
    A number keeps its lexeme: the program never computes with one. *)
#[warnings="-register-all"]
Inductive Value : Type :=
| VNone
| VBool (b : bool)
| VNum (lexeme : string)
| VStr (s : string)
| VList (elems : list Value)
| VDict (items : list (string * Value)).

(** The [response] payload of a botocore [ClientError]. *)
Record ClientErrorData : Type := mkClientError {
  operation_name : string;
  error_code : string;
  error_message : string
}.

(** An f-string or a %-style log line, kept as its literal text and the
    values interpolated into it, in order. *)
Inductive Piece : Type :=
| Lit (text : string)
| PStr (s : string)
| PInt (n : nat)
| PNames (names : list string)
| PVal (v : Value)
| POpt (o : option string)
| PErr (e : ClientErrorData).

Definition Msg : Type := list Piece.

Inductive Exn : Type :=
| KeyError (key : Value)
| TypeError
| IndexError
| ClientError (e : ClientErrorData)
| BotoCoreError (what : string)
| NoCloudtrailsFoundError (msg : Msg)
| MultipleCloudtrailsFoundError (msg : Msg)
| DeleteDefaultCloudtrailError (msg : Msg) (cause : ClientErrorData).

(** The outcome of a Python call: a value or a raised exception. *)
Inductive Result (A : Type) : Type :=
| Return (a : A)
| Raise (e : Exn).
Arguments Return {A} a.
Arguments Raise {A} e.

Definition rbind {A B} (r : Result A) (f : A -> Result B) : Result B :=
  match r with
  | Return a => f a
  | Raise e => Raise e
  end.

(** ** Strings *)

(** [str.lower] on the ASCII letters; every other character is kept.  (No
    character outside ASCII lowers to a letter of "true".) *)
Definition lower_ascii (c : ascii) : ascii :=
  let n := nat_of_ascii c in
  if ((65 <=? n)%nat && (n <=? 90)%nat)%bool then ascii_of_nat (n + 32) else c.

Fixpoint lower (s : string) : string :=
  match s with
  | EmptyString => EmptyString
  | String c s' => String (lower_ascii c) (lower s')
  end.

(** [name.startswith(prefix)]: a literal, case-sensitive leading substring. *)
Definition startswith (s pre : string) : bool := String.prefix pre s.

(** [s.split(sep)] for a one-character separator. *)
Fixpoint split (sep : ascii) (s : string) : list string :=
  match s with
  | EmptyString => [EmptyString]
  | String c s' =>
      if Ascii.eqb c sep then EmptyString :: split sep s'
      else match split sep s' with
           | [] => [String c EmptyString]
           | w :: ws => String c w :: ws
           end
  end.

(** [xs[i]] on a list. *)
Definition list_getitem {A} (xs : list A) (i : nat) : Result A :=
  match nth_error xs i with
  | Some x => Return x
  | None => Raise IndexError
  end.

(** ** Dictionaries *)

Fixpoint assoc {A} (k : string) (items : list (string * A)) : option A :=
  match items with
  | [] => None
  | (k', v) :: rest => if String.eqb k k' then Some v else assoc k rest
  end.

(** [v[k]] for a string key: only a dict can be subscripted by one. *)
Definition getitem (v : Value) (k : string) : Result Value :=
  match v with
  | VDict items =>
      match assoc k items with
      | Some x => Return x
      | None => Raise (KeyError (VStr k))
      end
  | _ => Raise TypeError
  end.

(** [d[k]] on a dict with string keys, for a key of any type: a list or a
    dict cannot be hashed, anything else that is no key is a [KeyError]. *)
Definition dict_lookup {A} (d : list (string * A)) (k : Value) : Result A :=
  match k with
  | VStr s =>
      match assoc s d with
      | Some x => Return x
      | None => Raise (KeyError k)
      end
  | VList _ | VDict _ => Raise TypeError
  | _ => Raise (KeyError k)
  end.

(** ** Module-level configuration *)

(** The process environment, [os.environ]. *)
Definition Environ : Type := string -> option string.

Definition getenv (environ : Environ) (name default : string) : string :=
  match environ name with
  | Some v => v
  | None => default
  end.

Section Configuration.
Variable environ : Environ.

Definition CLOUDTRAIL_NAME_PREFIX : string :=
  getenv environ "CLOUDTRAIL_NAME_PREFIX" "cloudtrail-".
Definition ERROR_NOT_FOUND : bool :=
  String.eqb (lower (getenv environ "ERROR_NOT_FOUND" "true")) "true".
Definition DRY_RUN : bool :=
  String.eqb (lower (getenv environ "DRY_RUN" "true")) "true".
Definition ASSUME_ROLE_NAME : string :=
  getenv environ "ASSUME_ROLE_NAME" "OrganizationAccountAccessRole".
End Configuration.

(** An environment given as a list of bindings. *)
Definition env_of (bindings : list (string * string)) : Environ :=
  fun name => assoc name bindings.

(** ** Account-id extraction *)

Definition get_new_account_id (event : Value) : Result Value :=
  rbind (getitem event "detail") (fun detail =>
  rbind (getitem detail "serviceEventDetails") (fun sed =>
  rbind (getitem sed "createAccountStatus") (fun status =>
  getitem status "accountId"))).

Definition get_invite_account_id (event : Value) : Result Value :=
  rbind (getitem event "detail") (fun detail =>
  rbind (getitem detail "requestParameters") (fun params =>
  rbind (getitem params "target") (fun target =>
  getitem target "id"))).

Definition get_account_id_strategy : list (string * (Value -> Result Value)) :=
  [ ("CreateAccountResult", get_new_account_id);
    ("InviteAccountToOrganization", get_invite_account_id) ].

Definition get_account_id (event : Value) : Result Value :=
  rbind (getitem event "detail") (fun detail =>
  rbind (getitem detail "eventName") (fun event_name =>
  rbind (dict_lookup get_account_id_strategy event_name) (fun strategy =>
  strategy event))).

(** ** boto3 data *)

(** An entry of [describe_trails()["trailList"]], also the ["Trail"] of a
    [get_trail] response. *)
Record TrailInfo : Type := mkTrail {
  Name : string;
  TrailARN : string;
  S3BucketName : string
}.

(** A [get_trail] response.  Like every boto3 response it is a non-empty
    dict (it carries ["ResponseMetadata"]), hence truthy. *)
Record GetTrailResponse : Type := mkGetTrail { Trail : TrailInfo }.

Record S3Object : Type := mkObject { Key : string }.

(** A [list_objects_v2] response: the ["Contents"] key may be absent. *)
Record ListObjectsV2Response : Type := mkListObjects {
  Contents : option (list S3Object)
}.

(** A boto3 session: the process's own, or one obtained by [assume_role]. *)
Inductive Session : Type :=
| DefaultSession
| AssumedSession (role_arn : option string) (role_session_name : string).

Record Client : Type := mkClient {
  client_session : Session;
  client_service : string
}.

(** [session.client(service)]. *)
Definition client (s : Session) (service : string) : Client :=
  mkClient s service.

(** ** Call traces *)

Inductive Call : Type :=
| AssumeRole (role_arn : option string) (role_session_name : string)
| GetCallerIdentity (s : Session)
| DescribeTrails
| GetTrail (name : string)
| StopLogging (name : string)
| DeleteTrail (name : string)
| ListObjectsV2 (bucket : string)
| DeleteObject (bucket key : string)
| DeleteBucket (bucket : string).

Inductive Level : Type := DEBUG | INFO | WARNING | ERROR.

Inductive Event : Type :=
| Api (c : Call)
| Log (lvl : Level) (msg : Msg).

Definition is_mutating (c : Call) : bool :=
  match c with
  | StopLogging _ | DeleteTrail _ | DeleteObject _ _ | DeleteBucket _ => true
  | _ => false
  end.

(** The API calls of a trace, in order. *)
Fixpoint api_calls (evs : list Event) : list Call :=
  match evs with
  | [] => []
  | Api c :: rest => c :: api_calls rest
  | Log _ _ :: rest => api_calls rest
  end.

Definition mutating_calls (evs : list Event) : list Call :=
  filter is_mutating (api_calls evs).

(** ** The services the program talks to

    [W] is the state of the world outside the process (the AWS accounts).
    Each operation answers from that state and may change it. *)
Class Services (W : Type) : Type := {
  sts_get_caller_identity : Session -> W -> Result string * W;
  lib_assume_role : Session -> option string -> string -> W -> Result Session * W;
  generate_lambda_session_name : string -> string;
  cloudtrail_describe_trails : Client -> W -> Result (list TrailInfo) * W;
  cloudtrail_get_trail : Client -> string -> W -> Result GetTrailResponse * W;
  cloudtrail_stop_logging : Client -> string -> W -> Result unit * W;
  cloudtrail_delete_trail : Client -> string -> W -> Result unit * W;
  s3_list_objects_v2 : Client -> string -> W -> Result ListObjectsV2Response * W;
  s3_delete_object : Client -> string -> string -> W -> Result unit * W;
  s3_delete_bucket : Client -> string -> W -> Result unit * W;
  (** [str(v)], as an f-string applies it to an interpolated value. *)
  py_str : Value -> string;
  py_str_VStr : forall s, py_str (VStr s) = s
}.

(** ** State, exceptions and trace *)

Definition M (W A : Type) : Type := W -> Result A * W * list Event.

Definition ret {W A} (a : A) : M W A := fun w => (Return a, w, []).

Definition raise {W A} (e : Exn) : M W A := fun w => (Raise e, w, []).

Definition bind {W A B} (m : M W A) (f : A -> M W B) : M W B :=
  fun w =>
    match m w with
    | (Return a, w1, t1) =>
        match f a w1 with
        | (r, w2, t2) => (r, w2, t1 ++ t2)
        end
    | (Raise e, w1, t1) => (Raise e, w1, t1)
    end.

Declare Scope prog_scope.
Delimit Scope prog_scope with prog.
Notation "x <- m ;; k" := (bind m (fun x => k))
  (at level 61, m at next level, right associativity) : prog_scope.
Notation "m ;; k" := (bind m (fun _ => k))
  (at level 61, right associativity) : prog_scope.

Definition lift {W A} (r : Result A) : M W A := fun w => (r, w, []).

(** One call to a service: the call is recorded, the service answers. *)
Definition invoke {W A} (c : Call) (op : W -> Result A * W) : M W A :=
  fun w => match op w with (r, w') => (r, w', [Api c]) end.

Definition log {W} (lvl : Level) (msg : Msg) : M W unit :=
  fun w => (Return tt, w, [Log lvl msg]).

(** [try: body except ClientError as err: handler(err)]. *)
Definition try_except_ClientError {W A}
    (body : M W A) (handler : ClientErrorData -> M W A) : M W A :=
  fun w =>
    match body w with
    | (Raise (ClientError err), w1, t1) =>
        match handler err w1 with
        | (r, w2, t2) => (r, w2, t1 ++ t2)
        end
    | other => other
    end.

(** [for x in xs: body(x)]. *)
Fixpoint for_each {W A} (xs : list A) (body : A -> M W unit) : M W unit :=
  match xs with
  | [] => ret tt
  | x :: rest => bind (body x) (fun _ => for_each rest body)
  end.

Definition result_of {W A} (o : Result A * W * list Event) : Result A :=
  fst (fst o).
Definition world_of {W A} (o : Result A * W * list Event) : W :=
  snd (fst o).
Definition events_of {W A} (o : Result A * W * list Event) : list Event :=
  snd o.

(** ** The module's functions *)

Section Program.
Context {W : Type} `{Services W}.
Variable environ : Environ.
Local Open Scope prog_scope.

(** [SESSION = boto3.Session()]; [boto3.client("sts")] uses the same
    default credentials. *)
Definition SESSION : Session := DefaultSession.

(** The matching loop of [get_cloudtrail]. *)
Definition matching_names (prefix : string) (trailList : list TrailInfo)
  : list string :=
  fold_left
    (fun matching_trails trail =>
       if startswith (Name trail) prefix
       then matching_trails ++ [Name trail]
       else matching_trails)
    trailList [].

Definition multiple_found_error (prefix : string) (matching : list string)
  : Msg :=
  [ Lit "Multiple ("; PInt (length matching); Lit ") cloudtrails found: ";
    PStr prefix; Lit ", "; PNames matching ].

Definition none_found_error (prefix : string) : Msg :=
  [ Lit "No cloudtrail found for prefix "; PStr prefix ].

Definition lookup_failed_error (prefix : string) : Msg :=
  [ Lit "Error getting cloudtrail by prefix "; PStr prefix ].

Definition get_cloudtrail (c : Client) (prefix : string)
  : M W (option GetTrailResponse) :=
  try_except_ClientError
    (cloudtrails <- invoke DescribeTrails (cloudtrail_describe_trails c) ;;
     let matching_trails := matching_names prefix cloudtrails in
     if (1 <? length matching_trails)%nat then
       log ERROR (multiple_found_error prefix matching_trails) ;;
       raise (MultipleCloudtrailsFoundError
                (multiple_found_error prefix matching_trails))
     else if (length matching_trails =? 0)%nat then
       if ERROR_NOT_FOUND environ then
         log ERROR (none_found_error prefix) ;;
         raise (NoCloudtrailsFoundError (none_found_error prefix))
       else
         log WARNING (none_found_error prefix) ;;
         ret None
     else
       name <- lift (list_getitem matching_trails 0) ;;
       trail <- invoke (GetTrail name) (cloudtrail_get_trail c name) ;;
       ret (Some trail))
    (fun err =>
       log ERROR [ Lit "Error getting cloudtrail "; PErr err ] ;;
       raise (DeleteDefaultCloudtrailError (lookup_failed_error prefix) err)).

Definition delete_cloudtrail (cloudtrail_arn : string) (c : Client)
  : M W unit :=
  invoke (StopLogging cloudtrail_arn) (cloudtrail_stop_logging c cloudtrail_arn) ;;
  invoke (DeleteTrail cloudtrail_arn) (cloudtrail_delete_trail c cloudtrail_arn) ;;
  log DEBUG [ Lit "Cloudtrail "; PStr cloudtrail_arn; Lit " has been deleted." ].

Definition delete_s3_objects (bucket_name : string) (c : Client) : M W unit :=
  response <- invoke (ListObjectsV2 bucket_name)
                     (s3_list_objects_v2 c bucket_name) ;;
  objects <- lift (match Contents response with
                   | Some objs => Return objs
                   | None => Raise (KeyError (VStr "Contents"))
                   end) ;;
  for_each objects
    (fun obj => invoke (DeleteObject bucket_name (Key obj))
                       (s3_delete_object c bucket_name (Key obj))) ;;
  log DEBUG [ Lit "All objects from s3 bucket "; PStr bucket_name;
              Lit " have been deleted." ].

Definition delete_s3_bucket (bucket_name : string) (c : Client) : M W unit :=
  delete_s3_objects bucket_name c ;;
  invoke (DeleteBucket bucket_name) (s3_delete_bucket c bucket_name) ;;
  log DEBUG [ Lit "S3 bucket "; PStr bucket_name; Lit " has been deleted." ].

Definition get_assumed_role_session (account_id : Value)
    (role_arn : option string) : M W Session :=
  let function_name :=
    getenv environ "AWS_LAMBDA_FUNCTION_NAME" "delete_default_cloudtrail.py" in
  let role_session_name := generate_lambda_session_name function_name in
  assumed_role_session <-
    invoke (AssumeRole role_arn role_session_name)
           (lib_assume_role SESSION role_arn role_session_name) ;;
  arn <- invoke (GetCallerIdentity assumed_role_session)
                (sts_get_caller_identity assumed_role_session) ;;
  log DEBUG [ Lit "Assumed identity for account "; PVal account_id;
              Lit " is "; PStr arn ] ;;
  ret assumed_role_session.

Definition get_boto3_clients (assume_role_arn : option string)
    (account_id : Value) : M W (Client * Client) :=
  assumed_role_session <- get_assumed_role_session account_id assume_role_arn ;;
  let cloudtrail_client := client assumed_role_session "cloudtrail" in
  let s3_client := client assumed_role_session "s3" in
  ret (cloudtrail_client, s3_client).

Definition delete_cloudtrail_resources (assume_role_arn : option string)
    (account_id : Value) : M W unit :=
  clients <- get_boto3_clients assume_role_arn account_id ;;
  let cloudtrail_client := fst clients in
  let s3_client := snd clients in
  cloudtrail <- get_cloudtrail cloudtrail_client
                               (CLOUDTRAIL_NAME_PREFIX environ) ;;
  match cloudtrail with
  | Some cloudtrail =>
      if negb (DRY_RUN environ) then
        delete_cloudtrail (TrailARN (Trail cloudtrail)) cloudtrail_client ;;
        delete_s3_bucket (S3BucketName (Trail cloudtrail)) s3_client
      else
        log WARNING [ Lit "NOT ARMED: Cloudtrail ARN: ";
                      PStr (TrailARN (Trail cloudtrail));
                      Lit ", S3 Bucket Name: ";
                      PStr (S3BucketName (Trail cloudtrail)) ]
  | None =>
      log WARNING [ Lit "Cloudtrail "; PStr (CLOUDTRAIL_NAME_PREFIX environ);
                    Lit " not found." ]
  end.

Definition get_partition : M W string :=
  arn <- invoke (GetCallerIdentity DefaultSession)
                (sts_get_caller_identity DefaultSession) ;;
  lift (list_getitem (split ":" arn) 1).

(** The f-string [arn:{partition}:iam::{account}:role/{role_name}]. *)
Definition role_arn_of (partition account role_name : string) : string :=
  "arn:" ++ partition ++ ":iam::" ++ account ++ ":role/" ++ role_name.

Definition lambda_handler (event context : Value) : M W unit :=
  log DEBUG [ Lit "AWS Event:"; PVal event ] ;;
  account_id <- lift (get_account_id event) ;;
  partition <- get_partition ;;
  let assume_role_arn :=
    role_arn_of partition (py_str account_id) (ASSUME_ROLE_NAME environ) in
  delete_cloudtrail_resources (Some assume_role_arn) account_id.

Definition main (target_account_id : string)
    (assume_role_arn : option string) : M W unit :=
  arn <- invoke (GetCallerIdentity SESSION) (sts_get_caller_identity SESSION) ;;
  log DEBUG [ Lit "Main identity is "; PStr arn ] ;;
  delete_cloudtrail_resources assume_role_arn (VStr target_account_id) ;;
  if DRY_RUN environ then
    log DEBUG [ Lit "Dry Run listed all resources that would be deleted" ]
  else
    log DEBUG [ Lit "Deleted cloudtrail associated s3 bucket/objects" ].

(** [if assume_role_name:] holds for a string that is given and not empty. *)
Definition truthy (name : option string) : bool :=
  match name with
  | Some EmptyString => false
  | Some _ => true
  | None => false
  end.

Definition cli_main (target_account_id : string)
    (assume_role_arn assume_role_name : option string) : M W unit :=
  log DEBUG [ Lit "CLI - target_account_id="; PStr target_account_id;
              Lit " assume_role_arn="; POpt assume_role_arn;
              Lit " assume_role_name="; POpt assume_role_name ] ;;
  assume_role_arn <-
    (match assume_role_name with
     | Some name =>
         if truthy assume_role_name then
           partition <- get_partition ;;
           let assume_role_arn :=
             role_arn_of partition target_account_id name in
           log INFO [ Lit "assume_role_arn for provided role name is '";
                      PStr assume_role_arn; Lit "'" ] ;;
           ret (Some assume_role_arn)
         else ret assume_role_arn
     | None => ret assume_role_arn
     end) ;;
  main target_account_id assume_role_arn.
End Program.

(** ** A simulated AWS account

    The services as AWS documents them, over an account that holds trails
    and buckets.  [list_objects_v2] answers with one page of at most
    [page_size] keys (1000 on AWS) and leaves ["Contents"] out when the
    bucket has no object; [delete_bucket] refuses a bucket that still holds
    objects; [delete_object] succeeds whether or not the key exists.  The
    operations listed in [denied] are refused, as by an IAM policy. *)
Module Sim.

Record Account : Type := mkAccount {
  caller_arn : string;
  trails : list TrailInfo;
  buckets : list (string * list string);
  page_size : nat;
  denied : list string
}.

Definition client_error (op code : string) : Exn :=
  ClientError (mkClientError op code EmptyString).

(** CloudTrail accepts a trail's name or its ARN. *)
Definition names_trail (name : string) (t : TrailInfo) : bool :=
  (String.eqb (Name t) name || String.eqb (TrailARN t) name)%bool.

Fixpoint put_bucket (b : string) (keys : list string)
    (bs : list (string * list string)) : list (string * list string) :=
  match bs with
  | [] => []
  | (b', keys') :: rest =>
      if String.eqb b b' then (b', keys) :: rest
      else (b', keys') :: put_bucket b keys rest
  end.

Fixpoint drop_bucket (b : string) (bs : list (string * list string))
  : list (string * list string) :=
  match bs with
  | [] => []
  | (b', keys') :: rest =>
      if String.eqb b b' then rest else (b', keys') :: drop_bucket b rest
  end.

Definition remove_key (k : string) (keys : list string) : list string :=
  filter (fun k' => negb (String.eqb k' k)) keys.

Definition with_trails (w : Account) (ts : list TrailInfo) : Account :=
  mkAccount (caller_arn w) ts (buckets w) (page_size w) (denied w).

Definition with_buckets (w : Account) (bs : list (string * list string))
  : Account :=
  mkAccount (caller_arn w) (trails w) bs (page_size w) (denied w).

Definition refused (op : string) (w : Account) : bool :=
  existsb (String.eqb op) (denied w).

Definition guard {A} (op : string) (w : Account)
    (answer : Result A * Account) : Result A * Account :=
  if refused op w then (Raise (client_error op "AccessDenied"), w)
  else answer.

Definition get_caller_identity (s : Session) (w : Account)
  : Result string * Account :=
  match s with
  | DefaultSession => (Return (caller_arn w), w)
  | AssumedSession (Some arn) _ =>
      (* the identity of an assumed role is reported as the role's ARN *)
      guard "AssumeRole" w (Return arn, w)
  | AssumedSession None _ => (Raise (BotoCoreError "ParamValidationError"), w)
  end.

(** With [validate=False] no call is made until the session is used. *)
Definition assume_role (s : Session) (role_arn : option string)
    (role_session_name : string) (w : Account) : Result Session * Account :=
  (Return (AssumedSession role_arn role_session_name), w).

Definition describe_trails (c : Client) (w : Account)
  : Result (list TrailInfo) * Account :=
  guard "DescribeTrails" w (Return (trails w), w).

Definition get_trail (c : Client) (name : string) (w : Account)
  : Result GetTrailResponse * Account :=
  guard "GetTrail" w
    match find (names_trail name) (trails w) with
    | Some t => (Return (mkGetTrail t), w)
    | None => (Raise (client_error "GetTrail" "TrailNotFoundException"), w)
    end.

Definition stop_logging (c : Client) (name : string) (w : Account)
  : Result unit * Account :=
  guard "StopLogging" w
    match find (names_trail name) (trails w) with
    | Some _ => (Return tt, w)
    | None => (Raise (client_error "StopLogging" "TrailNotFoundException"), w)
    end.

Definition delete_trail (c : Client) (name : string) (w : Account)
  : Result unit * Account :=
  guard "DeleteTrail" w
    match find (names_trail name) (trails w) with
    | Some _ =>
        (Return tt,
         with_trails w
           (filter (fun t => negb (names_trail name t)) (trails w)))
    | None => (Raise (client_error "DeleteTrail" "TrailNotFoundException"), w)
    end.

Definition list_objects_v2 (c : Client) (bucket : string) (w : Account)
  : Result ListObjectsV2Response * Account :=
  guard "ListObjectsV2" w
    match assoc bucket (buckets w) with
    | None => (Raise (client_error "ListObjectsV2" "NoSuchBucket"), w)
    | Some [] => (Return (mkListObjects None), w)
    | Some keys =>
        (Return (mkListObjects
                   (Some (map mkObject (firstn (page_size w) keys)))), w)
    end.

Definition delete_object (c : Client) (bucket key : string) (w : Account)
  : Result unit * Account :=
  guard "DeleteObject" w
    match assoc bucket (buckets w) with
    | None => (Raise (client_error "DeleteObject" "NoSuchBucket"), w)
    | Some keys =>
        (Return tt,
         with_buckets w
           (put_bucket bucket (remove_key key keys) (buckets w)))
    end.

Definition delete_bucket (c : Client) (bucket : string) (w : Account)
  : Result unit * Account :=
  guard "DeleteBucket" w
    match assoc bucket (buckets w) with
    | None => (Raise (client_error "DeleteBucket" "NoSuchBucket"), w)
    | Some [] => (Return tt, with_buckets w (drop_bucket bucket (buckets w)))
    | Some (_ :: _) =>
        (Raise (client_error "DeleteBucket" "BucketNotEmpty"), w)
    end.

(** [str] of a string, of [None] and of a boolean.  The sample runs format
    nothing else; a number, a list or a dict gets a fixed text here. *)
Definition str (v : Value) : string :=
  match v with
  | VStr s => s
  | VNone => "None"
  | VBool true => "True"
  | VBool false => "False"
  | VNum _ | VList _ | VDict _ => "<object>"
  end.

#[global] Instance services : Services Account := {
  sts_get_caller_identity := get_caller_identity;
  lib_assume_role := assume_role;
  generate_lambda_session_name := fun function_name => function_name;
  cloudtrail_describe_trails := describe_trails;
  cloudtrail_get_trail := get_trail;
  cloudtrail_stop_logging := stop_logging;
  cloudtrail_delete_trail := delete_trail;
  s3_list_objects_v2 := list_objects_v2;
  s3_delete_object := delete_object;
  s3_delete_bucket := delete_bucket;
  py_str := str;
  py_str_VStr := fun s => eq_refl
}.

(** *** Sample accounts *)

Definition prod : TrailInfo :=
  mkTrail "cloudtrail-prod"
          "arn:aws:cloudtrail:us-east-1:111111111111:trail/cloudtrail-prod"
          "my-trail-bucket".
Definition dev : TrailInfo :=
  mkTrail "cloudtrail-dev"
          "arn:aws:cloudtrail:us-east-1:111111111111:trail/cloudtrail-dev"
          "dev-bucket".
Definition audit : TrailInfo :=
  mkTrail "audit"
          "arn:aws:cloudtrail:us-east-1:111111111111:trail/audit"
          "audit-bucket".

Definition caller : string := "arn:aws:sts::999999999999:assumed-role/Ops/me".

(** One matching trail whose bucket holds two objects. *)
Definition account1 : Account :=
  mkAccount caller [audit; prod]
            [("audit-bucket", ["a"]); ("my-trail-bucket", ["key1"; "key2"])]
            1000 [].

(** Two matching trails. *)
Definition account2 : Account :=
  mkAccount caller [prod; dev]
            [("my-trail-bucket", ["key1"]); ("dev-bucket", [])] 1000 [].

(** No matching trail. *)
Definition account0 : Account :=
  mkAccount caller [audit] [("audit-bucket", ["a"])] 1000 [].

(** One matching trail whose bucket is empty. *)
Definition account_empty : Account :=
  mkAccount caller [prod] [("my-trail-bucket", [])] 1000 [].

(** One matching trail, three objects, pages of two keys. *)
Definition account_paged : Account :=
  mkAccount caller [prod] [("my-trail-bucket", ["k1"; "k2"; "k3"])] 2 [].

(** As [account1], with the given operations refused. *)
Definition account1_denying (ops : list string) : Account :=
  mkAccount caller (trails account1) (buckets account1) 1000 ops.

Definition live : Environ := env_of [("DRY_RUN", "false")].
Definition dry : Environ := env_of [].
Definition lenient : Environ := env_of [("ERROR_NOT_FOUND", "False")].

Definition role : option string :=
  Some "arn:aws:iam::111111111111:role/OrganizationAccountAccessRole".
Definition acct : Value := VStr "111111111111".

End Sim.

(** ** Vocabulary of the statements *)

(** The spellings that a flag reads as true. *)
Definition true_spellings : list string :=
  [ "true"; "truE"; "trUe"; "trUE"; "tRue"; "tRuE"; "tRUe"; "tRUE";
    "True"; "TruE"; "TrUe"; "TrUE"; "TRue"; "TRuE"; "TRUe"; "TRUE" ].

(** [v[k1][k2]...], the nested field that a dotted path names. *)
Fixpoint lookup_path (v : Value) (path : list string) : Result Value :=
  match path with
  | [] => Return v
  | k :: rest => rbind (getitem v k) (fun x => lookup_path x rest)
  end.

(** The trails of a listing whose name starts with the prefix. *)
Definition matching (prefix : string) (trailList : list TrailInfo)
  : list TrailInfo :=
  filter (fun t => startswith (Name t) prefix) trailList.

(** [xs] is an initial segment of [ys]. *)
Definition is_prefix {A} (xs ys : list A) : Prop := exists zs, ys = xs ++ zs.

(** The mutating calls of a complete live deletion, in order. *)
Definition deletion_script (arn bucket : string) (keys : list string)
  : list Call :=
  StopLogging arn :: DeleteTrail arn ::
  map (DeleteObject bucket) keys ++ [DeleteBucket bucket].

(** The role ARNs handed to [assume_role] in a trace, in order. *)
Fixpoint assumed_roles (evs : list Event) : list (option string) :=
  match evs with
  | [] => []
  | Api (AssumeRole role_arn _) :: rest => role_arn :: assumed_roles rest
  | _ :: rest => assumed_roles rest
  end.

(** The line of a dry run. *)
Definition not_armed (t : TrailInfo) : Event :=
  Log WARNING [ Lit "NOT ARMED: Cloudtrail ARN: "; PStr (TrailARN t);
                Lit ", S3 Bucket Name: "; PStr (S3BucketName t) ].

(** [n] invocations, one after the other, against the same world. *)
Fixpoint rerun {W} (n : nat) (m : M W unit) : M W unit :=
  match n with
  | O => ret tt
  | S n' => bind m (fun _ => rerun n' m)
  end.

(** The identity, role and trail lookups answer without changing the
    world. *)
Definition lookups_keep_world {W} `{Services W} : Prop :=
  (forall s w, snd (sts_get_caller_identity s w) = w) /\
  (forall s a n w, snd (lib_assume_role s a n w) = w) /\
  (forall c w, snd (cloudtrail_describe_trails c w) = w) /\
  (forall c n w, snd (cloudtrail_get_trail c n w) = w).

(** An outcome keeps to a script of mutating calls: the calls made are an
    initial segment of the script, and the whole script once it returns. *)
Definition obeys {W A} (o : Result A * W * list Event) (script : list Call)
  : Prop :=
  is_prefix (mutating_calls (events_of o)) script /\
  (forall a, result_of o = Return a -> mutating_calls (events_of o) = script).

(** The session name that [get_assumed_role_session] asks for. *)
Definition role_session_name_of {W} `{Services W} (environ : Environ)
  : string :=
  generate_lambda_session_name
    (getenv environ "AWS_LAMBDA_FUNCTION_NAME" "delete_default_cloudtrail.py").

(** The events of a successful [get_boto3_clients]. *)
Definition session_events {W} `{Services W} (environ : Environ)
    (role_arn : option string) (account_id : Value) (s : Session)
    (identity : string) : list Event :=
  [ Api (AssumeRole role_arn (role_session_name_of environ));
    Api (GetCallerIdentity s);
    Log DEBUG [ Lit "Assumed identity for account "; PVal account_id;
                Lit " is "; PStr identity ] ].

(** The "account created" event of the specification. *)
Definition created_event : Value :=
  VDict [("detail",
          VDict [("eventName", VStr "CreateAccountResult");
                 ("serviceEventDetails",
                  VDict [("createAccountStatus",
                          VDict [("accountId", VStr "111111111111")])])])].

(** [evaluated H m] runs [m] and records its outcome as [H]. *)
Ltac evaluated H m :=
  let v := eval vm_compute in m in
  assert (H : m = v) by (vm_compute; reflexivity).

(** ** Module start-up: the logging configuration *)

(** The numeric levels of [logging]. *)
Definition logging_CRITICAL : nat := 50.
Definition logging_ERROR : nat := 40.
Definition logging_WARNING : nat := 30.
Definition logging_INFO : nat := 20.
Definition logging_DEBUG : nat := 10.

Definition DEFAULT_LOG_LEVEL : nat := logging_INFO.

(** The items the [defaultdict] starts with. *)
Definition LOG_LEVELS : list (string * nat) :=
  [ ("CRITICAL", logging_CRITICAL);
    ("ERROR", logging_ERROR);
    ("WARNING", logging_WARNING);
    ("INFO", logging_INFO);
    ("DEBUG", logging_DEBUG) ].

(** [d[k]] on a [defaultdict] whose factory returns [default]. *)
Definition defaultdict_getitem {A} (default : A) (d : list (string * A))
    (k : string) : A :=
  match assoc k d with
  | Some v => v
  | None => default
  end.

(** The [level] handed to [logging.basicConfig]. *)
Definition basicConfig_level (environ : Environ) : nat :=
  defaultdict_getitem DEFAULT_LOG_LEVEL LOG_LEVELS
    (lower (getenv environ "LOG_LEVEL" EmptyString)).

(** A handler object of the root logger, known by its identity. *)
Definition Handler : Type := nat.

(** [handlers.remove(h)]: the first element equal to [h] goes. *)
Fixpoint list_remove (h : Handler) (handlers : list Handler) : list Handler :=
  match handlers with
  | [] => []
  | x :: rest => if Nat.eqb x h then rest else x :: list_remove h rest
  end.

(** [Logger.removeHandler]: [if hdlr in self.handlers:
    self.handlers.remove(hdlr)]. *)
Definition removeHandler (h : Handler) (handlers : list Handler)
  : list Handler :=
  if existsb (Nat.eqb h) handlers then list_remove h handlers else handlers.

(** [for handler in root.handlers: root.removeHandler(handler)].  The
    iterator of a list is an index into it, and the body shortens the very
    list that is iterated; the loop ends when the index is past the end.
    [None] when the fuel runs out first. *)
Fixpoint remove_each_handler (fuel index : nat) (handlers : list Handler)
  : option (list Handler) :=
  match nth_error handlers index with
  | None => Some handlers
  | Some handler =>
      match fuel with
      | O => None
      | S fuel' =>
          remove_each_handler fuel' (S index) (removeHandler handler handlers)
      end
  end.

(** [if root.handlers: for handler in root.handlers: ...]. *)
Definition remove_root_handlers (fuel : nat) (handlers : list Handler)
  : option (list Handler) :=
  match handlers with
  | [] => Some []
  | _ :: _ => remove_each_handler fuel 0 handlers
  end.

(** The elements at the odd positions (the second, the fourth, ...). *)
Fixpoint odd_positions {A} (xs : list A) : list A :=
  match xs with
  | [] => []
  | _ :: rest =>
      match rest with
      | [] => []
      | y :: rest' => y :: odd_positions rest'
      end
  end.

(** ** A world out of reach

    No endpoint answers: every call that goes to the network fails with
    botocore's [EndpointConnectionError], which is no [ClientError]. *)
Module Offline.

Definition unreachable {A} (w : unit) : Result A * unit :=
  (Raise (BotoCoreError "EndpointConnectionError"), w).

#[global] Instance services : Services unit := {
  sts_get_caller_identity := fun _ => unreachable;
  lib_assume_role :=
    fun _ role_arn name w => (Return (AssumedSession role_arn name), w);
  generate_lambda_session_name := fun function_name => function_name;
  cloudtrail_describe_trails := fun _ => unreachable;
  cloudtrail_get_trail := fun _ _ => unreachable;
  cloudtrail_stop_logging := fun _ _ => unreachable;
  cloudtrail_delete_trail := fun _ _ => unreachable;
  s3_list_objects_v2 := fun _ _ => unreachable;
  s3_delete_object := fun _ _ _ => unreachable;
  s3_delete_bucket := fun _ _ => unreachable;
  py_str := Sim.str;
  py_str_VStr := fun s => eq_refl
}.

End Offline.

(** ** More vocabulary *)

(** [c in s]. *)
Fixpoint contains (c : ascii) (s : string) : bool :=
  match s with
  | EmptyString => false
  | String c' s' => (Ascii.eqb c' c || contains c s')%bool
  end.

(** Whether a call goes to CloudTrail or S3. *)
Definition is_resource_call (c : Call) : bool :=
  match c with
  | AssumeRole _ _ | GetCallerIdentity _ => false
  | _ => true
  end.

Definition resource_calls (evs : list Event) : list Call :=
  filter is_resource_call (api_calls evs).

(** The closing line of [main]. *)
Definition main_closing_line (environ : Environ) : Event :=
  if DRY_RUN environ
  then Log DEBUG [ Lit "Dry Run listed all resources that would be deleted" ]
  else Log DEBUG [ Lit "Deleted cloudtrail associated s3 bucket/objects" ].

(** * Properties *)

(** ** Configuration flags *)

Lemma lower_to_t (c : ascii) :
  lower_ascii c = "t"%char -> c = "t"%char \/ c = "T"%char.
Proof.
  destruct c as [[] [] [] [] [] [] [] []]; vm_compute; intro E;
    first [discriminate E | left; reflexivity | right; reflexivity].
Qed.

Lemma lower_to_r (c : ascii) :
  lower_ascii c = "r"%char -> c = "r"%char \/ c = "R"%char.
Proof.
  destruct c as [[] [] [] [] [] [] [] []]; vm_compute; intro E;
    first [discriminate E | left; reflexivity | right; reflexivity].
Qed.

Lemma lower_to_u (c : ascii) :
  lower_ascii c = "u"%char -> c = "u"%char \/ c = "U"%char.
Proof.
  destruct c as [[] [] [] [] [] [] [] []]; vm_compute; intro E;
    first [discriminate E | left; reflexivity | right; reflexivity].
Qed.

Lemma lower_to_e (c : ascii) :
  lower_ascii c = "e"%char -> c = "e"%char \/ c = "E"%char.
Proof.
  destruct c as [[] [] [] [] [] [] [] []]; vm_compute; intro E;
    first [discriminate E | left; reflexivity | right; reflexivity].
Qed.

Lemma lower_true_spellings (v : string) :
  lower v = "true" <-> In v true_spellings.
Proof.
  split.
  - destruct v as [|c1 [|c2 [|c3 [|c4 [|c5 v]]]]]; simpl; try discriminate.
    intro E. injection E as E1 E2 E3 E4.
    apply lower_to_t in E1. apply lower_to_r in E2.
    apply lower_to_u in E3. apply lower_to_e in E4.
    destruct E1, E2, E3, E4; subst; unfold true_spellings;
      repeat first [left; reflexivity | right].
  - unfold true_spellings. intro HIn.
    repeat (destruct HIn as [<- | HIn]; [reflexivity|]). destruct HIn.
Qed.

Lemma flag_reads_true (environ : Environ) (name : string) :
  String.eqb (lower (getenv environ name "true")) "true" = true <->
  lower (getenv environ name "true") = "true".
Proof. apply String.eqb_eq. Qed.

Lemma flag_reads_false (environ : Environ) (name v : string) :
  environ name = Some v -> lower v <> "true" ->
  String.eqb (lower (getenv environ name "true")) "true" = false.
Proof.
  intros Hv Hne. unfold getenv. rewrite Hv. now apply String.eqb_neq.
Qed.

(** C10: [DRY_RUN] and [ERROR_NOT_FOUND] are true exactly when the
    variable's value, lowercased, is "true", that is when it is one of the
    sixteen spellings of the word; an absent variable reads as true; "1",
    "yes" and the empty string read as false, and with DRY_RUN=1 the
    deletion of a resolved trail issues its mutating calls. *)
Theorem C10_flags_true_iff_lowercase_true :
  forall environ : Environ,
    (DRY_RUN environ = true <->
       lower (getenv environ "DRY_RUN" "true") = "true") /\
    (ERROR_NOT_FOUND environ = true <->
       lower (getenv environ "ERROR_NOT_FOUND" "true") = "true") /\
    (forall v, environ "DRY_RUN" = Some v ->
       (DRY_RUN environ = true <-> In v true_spellings)) /\
    (forall v, environ "ERROR_NOT_FOUND" = Some v ->
       (ERROR_NOT_FOUND environ = true <-> In v true_spellings)) /\
    (environ "DRY_RUN" = None -> DRY_RUN environ = true) /\
    (environ "ERROR_NOT_FOUND" = None -> ERROR_NOT_FOUND environ = true) /\
    (forall v, In v ["1"; "yes"; EmptyString] ->
       (environ "DRY_RUN" = Some v -> DRY_RUN environ = false) /\
       (environ "ERROR_NOT_FOUND" = Some v -> ERROR_NOT_FOUND environ = false)) /\
    mutating_calls
      (events_of (delete_cloudtrail_resources (env_of [("DRY_RUN", "1")])
                    Sim.role Sim.acct Sim.account1))
    = [ StopLogging (TrailARN Sim.prod); DeleteTrail (TrailARN Sim.prod);
        DeleteObject "my-trail-bucket" "key1";
        DeleteObject "my-trail-bucket" "key2";
        DeleteBucket "my-trail-bucket" ].
Proof.
  intro environ. unfold DRY_RUN, ERROR_NOT_FOUND.
  split; [apply flag_reads_true|].
  split; [apply flag_reads_true|].
  split.
  { intros v Hv. rewrite flag_reads_true. unfold getenv. rewrite Hv.
    apply lower_true_spellings. }
  split.
  { intros v Hv. rewrite flag_reads_true. unfold getenv. rewrite Hv.
    apply lower_true_spellings. }
  split.
  { intro Habsent. unfold getenv. rewrite Habsent. reflexivity. }
  split.
  { intro Habsent. unfold getenv. rewrite Habsent. reflexivity. }
  split.
  { intros v HIn.
    assert (Hne : lower v <> "true")
      by (destruct HIn as [<- | [<- | [<- | []]]]; discriminate).
    split; intro Hv; apply (flag_reads_false _ _ _ Hv Hne). }
  vm_compute. reflexivity.
Qed.

(** ** Account-id extraction *)

Lemma get_new_account_id_path (event : Value) :
  get_new_account_id event =
  lookup_path event
    ["detail"; "serviceEventDetails"; "createAccountStatus"; "accountId"].
Proof.
  unfold get_new_account_id. simpl.
  destruct (getitem event "detail") as [d|]; simpl; [|reflexivity].
  destruct (getitem d "serviceEventDetails") as [s|]; simpl; [|reflexivity].
  destruct (getitem s "createAccountStatus") as [c|]; simpl; [|reflexivity].
  destruct (getitem c "accountId"); reflexivity.
Qed.

Lemma get_invite_account_id_path (event : Value) :
  get_invite_account_id event =
  lookup_path event ["detail"; "requestParameters"; "target"; "id"].
Proof.
  unfold get_invite_account_id. simpl.
  destruct (getitem event "detail") as [d|]; simpl; [|reflexivity].
  destruct (getitem d "requestParameters") as [s|]; simpl; [|reflexivity].
  destruct (getitem s "target") as [c|]; simpl; [|reflexivity].
  destruct (getitem c "id"); reflexivity.
Qed.

Lemma event_name_inv (event name : Value) :
  lookup_path event ["detail"; "eventName"] = Return name ->
  exists detail,
    getitem event "detail" = Return detail /\
    getitem detail "eventName" = Return name.
Proof.
  simpl. destruct (getitem event "detail") as [d|]; simpl; [|discriminate].
  destruct (getitem d "eventName") as [n|] eqn:En; simpl; [|discriminate].
  intro E. injection E as <-. exists d. now split.
Qed.

Lemma strategy_unknown_name (s : string) :
  s <> "CreateAccountResult" -> s <> "InviteAccountToOrganization" ->
  assoc s get_account_id_strategy = None.
Proof.
  intros H1 H2. simpl.
  apply String.eqb_neq in H1. apply String.eqb_neq in H2.
  now rewrite H1, H2.
Qed.

(** C5: with [detail.eventName] equal to "CreateAccountResult" the
    extraction is the lookup of
    [detail.serviceEventDetails.createAccountStatus.accountId]; with
    "InviteAccountToOrganization" it is the lookup of
    [detail.requestParameters.target.id]; with any other event name it
    raises ([KeyError] carrying the name, [TypeError] when the name cannot
    be hashed) and returns no account id. *)
Theorem C5_account_id_by_event_name :
  forall event name : Value,
    lookup_path event ["detail"; "eventName"] = Return name ->
    (name = VStr "CreateAccountResult" ->
       get_account_id event =
       lookup_path event
         ["detail"; "serviceEventDetails"; "createAccountStatus"; "accountId"]) /\
    (name = VStr "InviteAccountToOrganization" ->
       get_account_id event =
       lookup_path event ["detail"; "requestParameters"; "target"; "id"]) /\
    (name <> VStr "CreateAccountResult" ->
     name <> VStr "InviteAccountToOrganization" ->
       (get_account_id event = Raise (KeyError name) \/
        get_account_id event = Raise TypeError) /\
       (forall s, name = VStr s -> get_account_id event = Raise (KeyError name)) /\
       (forall id, get_account_id event <> Return id)).
Proof.
  intros event name Hname.
  destruct (event_name_inv _ _ Hname) as (detail & Hd & Hn).
  unfold get_account_id. rewrite Hd. simpl. rewrite Hn. simpl.
  split; [|split].
  - intros ->. simpl. apply get_new_account_id_path.
  - intros ->. simpl. apply get_invite_account_id_path.
  - intros H1 H2.
    assert (Hcases :
      dict_lookup get_account_id_strategy name = Raise (KeyError name) \/
      (dict_lookup get_account_id_strategy name = Raise TypeError /\
       forall s, name <> VStr s)).
    { destruct name as [| b | l | s | l | d];
        try (left; reflexivity); try (right; split; [reflexivity | discriminate]).
      left. unfold dict_lookup. rewrite strategy_unknown_name; [reflexivity| |];
        intros ->; [now apply H1 | now apply H2]. }
    destruct Hcases as [E | [E Hns]]; rewrite E; simpl.
    + split; [now left|]. split; [reflexivity | discriminate].
    + split; [now right|]. split; [|discriminate].
      intros s Hs. now destruct (Hns s).
Qed.

Lemma C5_witness :
  get_account_id created_event = Return (VStr "111111111111").
Proof.
  destruct (C5_account_id_by_event_name created_event
              (VStr "CreateAccountResult") eq_refl) as [Hnew _].
  rewrite (Hnew eq_refl). reflexivity.
Defined.

(** ** Running the monad *)

Section Theory.
Context {W : Type} `{Services W}.
Variable environ : Environ.

Lemma bind_return {A B} (m : M W A) (f : A -> M W B) w a w1 t1 :
  m w = (Return a, w1, t1) ->
  bind m f w = (result_of (f a w1), world_of (f a w1),
                t1 ++ events_of (f a w1)).
Proof.
  intro E. unfold bind. rewrite E.
  destruct (f a w1) as [[r w2] t2]. reflexivity.
Qed.

Lemma bind_raise {A B} (m : M W A) (f : A -> M W B) w e w1 t1 :
  m w = (Raise e, w1, t1) -> bind m f w = (Raise e, w1, t1).
Proof. intro E. unfold bind. now rewrite E. Qed.

Lemma outcome_eta {A} (o : Result A * W * list Event) :
  o = (result_of o, world_of o, events_of o).
Proof. now destruct o as [[r w] t]. Qed.

Lemma api_calls_app (t1 t2 : list Event) :
  api_calls (t1 ++ t2) = api_calls t1 ++ api_calls t2.
Proof.
  induction t1 as [|[c|l m] t1 IH]; simpl; [reflexivity| |assumption].
  now rewrite IH.
Qed.

Lemma mutating_calls_app (t1 t2 : list Event) :
  mutating_calls (t1 ++ t2) = mutating_calls t1 ++ mutating_calls t2.
Proof. unfold mutating_calls. now rewrite api_calls_app, filter_app. Qed.

Lemma assumed_roles_app (t1 t2 : list Event) :
  assumed_roles (t1 ++ t2) = assumed_roles t1 ++ assumed_roles t2.
Proof.
  induction t1 as [|[[]|l m] t1 IH]; simpl; try assumption; try reflexivity.
  now rewrite IH.
Qed.

(** *** Trail resolution *)

Lemma matching_names_from (prefix : string) (T : list TrailInfo)
    (acc : list string) :
  fold_left
    (fun matching_trails trail =>
       if startswith (Name trail) prefix
       then matching_trails ++ [Name trail]
       else matching_trails) T acc
  = acc ++ map Name (matching prefix T).
Proof.
  revert acc. induction T as [|t T IH]; intro acc; simpl.
  - now rewrite app_nil_r.
  - rewrite IH. destruct (startswith (Name t) prefix); simpl.
    + now rewrite <- app_assoc.
    + reflexivity.
Qed.

Lemma matching_names_filter (prefix : string) (T : list TrailInfo) :
  matching_names prefix T = map Name (matching prefix T).
Proof. unfold matching_names. now rewrite matching_names_from. Qed.

Lemma get_cloudtrail_listing_fails c prefix w e w1 :
  cloudtrail_describe_trails c w = (Raise e, w1) ->
  get_cloudtrail environ c prefix w =
  match e with
  | ClientError err =>
      (Raise (DeleteDefaultCloudtrailError (lookup_failed_error prefix) err),
       w1,
       [Api DescribeTrails; Log ERROR [Lit "Error getting cloudtrail "; PErr err]])
  | _ => (Raise e, w1, [Api DescribeTrails])
  end.
Proof.
  intro E. unfold get_cloudtrail, try_except_ClientError, bind, invoke.
  rewrite E. destruct e; reflexivity.
Qed.

Lemma get_cloudtrail_multiple c prefix w T w1 :
  cloudtrail_describe_trails c w = (Return T, w1) ->
  2 <= length (matching prefix T) ->
  get_cloudtrail environ c prefix w =
  (Raise (MultipleCloudtrailsFoundError
            (multiple_found_error prefix (map Name (matching prefix T)))),
   w1,
   [Api DescribeTrails;
    Log ERROR (multiple_found_error prefix (map Name (matching prefix T)))]).
Proof.
  intros E Hlen. unfold get_cloudtrail, try_except_ClientError, bind, invoke.
  rewrite E, matching_names_filter.
  assert (Hlt : (1 <? length (map Name (matching prefix T)))%nat = true)
    by (rewrite length_map; apply Nat.ltb_lt; lia).
  rewrite Hlt. reflexivity.
Qed.

Lemma get_cloudtrail_none c prefix w T w1 :
  cloudtrail_describe_trails c w = (Return T, w1) ->
  matching prefix T = [] ->
  get_cloudtrail environ c prefix w =
  if ERROR_NOT_FOUND environ
  then (Raise (NoCloudtrailsFoundError (none_found_error prefix)), w1,
        [Api DescribeTrails; Log ERROR (none_found_error prefix)])
  else (Return None, w1,
        [Api DescribeTrails; Log WARNING (none_found_error prefix)]).
Proof.
  intros E Hnone. unfold get_cloudtrail, try_except_ClientError, bind, invoke.
  rewrite E, matching_names_filter, Hnone. simpl.
  destruct (ERROR_NOT_FOUND environ); reflexivity.
Qed.

Lemma get_cloudtrail_single c prefix w T w1 t :
  cloudtrail_describe_trails c w = (Return T, w1) ->
  matching prefix T = [t] ->
  get_cloudtrail environ c prefix w =
  match cloudtrail_get_trail c (Name t) w1 with
  | (Return trail, w2) =>
      (Return (Some trail), w2, [Api DescribeTrails; Api (GetTrail (Name t))])
  | (Raise (ClientError err), w2) =>
      (Raise (DeleteDefaultCloudtrailError (lookup_failed_error prefix) err),
       w2,
       [Api DescribeTrails; Api (GetTrail (Name t));
        Log ERROR [Lit "Error getting cloudtrail "; PErr err]])
  | (Raise e, w2) => (Raise e, w2, [Api DescribeTrails; Api (GetTrail (Name t))])
  end.
Proof.
  intros E Hone. unfold get_cloudtrail, try_except_ClientError, bind, invoke.
  rewrite E, matching_names_filter, Hone. simpl.
  destruct (cloudtrail_get_trail c (Name t) w1) as [[trail|e] w2];
    [reflexivity|]. destruct e; reflexivity.
Qed.

(** C1: when the listing returns [T], resolution with prefix [P] does
    this.  Exactly one trail of [T] has a name starting with [P]: it
    fetches that trail by name and returns the descriptor fetched.  None
    has: it raises [NoCloudtrailsFoundError] when ERROR_NOT_FOUND is
    true, and returns [None] when it is false.  Two or more have: it
    raises [MultipleCloudtrailsFoundError]. *)
Theorem C1_resolution_by_match_count :
  forall (c : Client) (P : string) (w w1 : W) (T : list TrailInfo),
    cloudtrail_describe_trails c w = (Return T, w1) ->
    (forall t, matching P T = [t] ->
       forall descriptor w2,
         cloudtrail_get_trail c (Name t) w1 = (Return descriptor, w2) ->
         get_cloudtrail environ c P w =
         (Return (Some descriptor), w2,
          [Api DescribeTrails; Api (GetTrail (Name t))])) /\
    (matching P T = [] -> ERROR_NOT_FOUND environ = true ->
       get_cloudtrail environ c P w =
       (Raise (NoCloudtrailsFoundError (none_found_error P)), w1,
        [Api DescribeTrails; Log ERROR (none_found_error P)])) /\
    (matching P T = [] -> ERROR_NOT_FOUND environ = false ->
       get_cloudtrail environ c P w =
       (Return None, w1,
        [Api DescribeTrails; Log WARNING (none_found_error P)])) /\
    (2 <= length (matching P T) ->
       get_cloudtrail environ c P w =
       (Raise (MultipleCloudtrailsFoundError
                 (multiple_found_error P (map Name (matching P T)))),
        w1,
        [Api DescribeTrails;
         Log ERROR (multiple_found_error P (map Name (matching P T)))])).
Proof.
  intros c P w w1 T Hlist. repeat split.
  - intros t Hone descriptor w2 Hget.
    rewrite (get_cloudtrail_single _ _ _ _ _ _ Hlist Hone), Hget.
    reflexivity.
  - intros Hnone Hflag.
    rewrite (get_cloudtrail_none _ _ _ _ _ Hlist Hnone), Hflag.
    reflexivity.
  - intros Hnone Hflag.
    rewrite (get_cloudtrail_none _ _ _ _ _ Hlist Hnone), Hflag.
    reflexivity.
  - intro Hmany. now apply get_cloudtrail_multiple.
Qed.

(** *** Lookup failures *)

Lemma get_cloudtrail_outcomes c prefix w :
  let o := get_cloudtrail environ c prefix w in
  mutating_calls (events_of o) = [] /\
  assumed_roles (events_of o) = [] /\
  (forall err, result_of o <> Raise (ClientError err)).
Proof.
  destruct (cloudtrail_describe_trails c w) as [[T|e] w1] eqn:E.
  - destruct (matching prefix T) as [|t [|t' rest]] eqn:Em.
    + rewrite (get_cloudtrail_none _ _ _ _ _ E Em).
      destruct (ERROR_NOT_FOUND environ); simpl;
        repeat split; discriminate.
    + rewrite (get_cloudtrail_single _ _ _ _ _ _ E Em).
      destruct (cloudtrail_get_trail c (Name t) w1) as [[trail|e] w2];
        [|destruct e]; simpl; repeat split; discriminate.
    + rewrite (get_cloudtrail_multiple _ _ _ _ _ E)
        by (rewrite Em; simpl; lia).
      simpl. repeat split. discriminate.
  - rewrite (get_cloudtrail_listing_fails _ _ _ _ _ E).
    destruct e; simpl; repeat split; discriminate.
Qed.

(** C7: a [ClientError] raised by the listing call, or by the fetch of
    the one matching trail, leaves [get_cloudtrail] as a
    [DeleteDefaultCloudtrailError] whose message names the prefix and
    whose cause is that error; no [ClientError] leaves [get_cloudtrail]
    unwrapped. *)
Theorem C7_client_errors_are_wrapped :
  forall (c : Client) (P : string) (w : W),
    (forall err w1,
       cloudtrail_describe_trails c w = (Raise (ClientError err), w1) ->
       get_cloudtrail environ c P w =
       (Raise (DeleteDefaultCloudtrailError
                 [Lit "Error getting cloudtrail by prefix "; PStr P] err),
        w1,
        [Api DescribeTrails;
         Log ERROR [Lit "Error getting cloudtrail "; PErr err]])) /\
    (forall T w1 t err w2,
       cloudtrail_describe_trails c w = (Return T, w1) ->
       matching P T = [t] ->
       cloudtrail_get_trail c (Name t) w1 = (Raise (ClientError err), w2) ->
       get_cloudtrail environ c P w =
       (Raise (DeleteDefaultCloudtrailError
                 [Lit "Error getting cloudtrail by prefix "; PStr P] err),
        w2,
        [Api DescribeTrails; Api (GetTrail (Name t));
         Log ERROR [Lit "Error getting cloudtrail "; PErr err]])) /\
    (forall err,
       result_of (get_cloudtrail environ c P w) <> Raise (ClientError err)).
Proof.
  intros c P w. split; [|split].
  - intros err w1 E.
    now rewrite (get_cloudtrail_listing_fails _ _ _ _ _ E).
  - intros T w1 t err w2 E Hone Hget.
    now rewrite (get_cloudtrail_single _ _ _ _ _ _ E Hone), Hget.
  - apply get_cloudtrail_outcomes.
Qed.

(** *** Scripts of mutating calls *)

Lemma is_prefix_refl {A} (xs : list A) : is_prefix xs xs.
Proof. exists []. now rewrite app_nil_r. Qed.

Lemma is_prefix_nil {A} (xs : list A) : is_prefix [] xs.
Proof. now exists xs. Qed.

Lemma is_prefix_app_r {A} (xs ys zs : list A) :
  is_prefix xs ys -> is_prefix xs (ys ++ zs).
Proof. intros [r ->]. exists (r ++ zs). now rewrite app_assoc. Qed.

Lemma is_prefix_app_l {A} (p xs ys : list A) :
  is_prefix xs ys -> is_prefix (p ++ xs) (p ++ ys).
Proof. intros [r ->]. exists r. now rewrite app_assoc. Qed.

Lemma obeys_bind {A B} (m : M W A) (f : A -> M W B) w s1 s2 :
  obeys (m w) s1 ->
  (forall a w1 t1, m w = (Return a, w1, t1) -> obeys (f a w1) s2) ->
  obeys (bind m f w) (s1 ++ s2).
Proof.
  intros [Hpre Hdone] Hf.
  destruct (m w) as [[[a|e] w1] t1] eqn:E.
  - rewrite (bind_return _ _ _ _ _ _ E).
    destruct (Hf a w1 t1 eq_refl) as [Hpre2 Hdone2].
    unfold obeys, events_of, result_of in *. simpl in *.
    rewrite mutating_calls_app, (Hdone a eq_refl). split.
    + now apply is_prefix_app_l.
    + intros b Hb. now rewrite (Hdone2 b Hb).
  - rewrite (bind_raise _ _ _ _ _ _ E).
    unfold obeys, events_of, result_of in *. simpl in *. split.
    + now apply is_prefix_app_r.
    + discriminate.
Qed.

Lemma obeys_script_eq {A} (o : Result A * W * list Event) s s' :
  obeys o s -> s = s' -> obeys o s'.
Proof. now intros Ho <-. Qed.

Lemma obeys_quiet {A} (o : Result A * W * list Event) :
  mutating_calls (events_of o) = [] -> obeys o [].
Proof.
  intro E. unfold obeys. rewrite E. split; [apply is_prefix_refl | reflexivity].
Qed.

Lemma obeys_invoke {A} (c : Call) (op : W -> Result A * W) w :
  is_mutating c = true -> obeys (invoke c op w) [c].
Proof.
  intro Hc. unfold obeys, invoke. destruct (op w) as [r w1].
  unfold events_of, mutating_calls. simpl. rewrite Hc.
  split; [apply is_prefix_refl | reflexivity].
Qed.

Lemma obeys_log (lvl : Level) (msg : Msg) (w : W) : obeys (log lvl msg w) [].
Proof. now apply obeys_quiet. Qed.

Lemma delete_cloudtrail_script arn c w :
  obeys (delete_cloudtrail arn c w) [StopLogging arn; DeleteTrail arn].
Proof.
  unfold delete_cloudtrail.
  apply (obeys_bind _ _ _ [StopLogging arn] [DeleteTrail arn]);
    [now apply obeys_invoke|]. intros _ w1 _ _.
  apply (obeys_bind _ _ _ [DeleteTrail arn] []);
    [now apply obeys_invoke|]. intros _ w2 _ _.
  apply obeys_log.
Qed.

Lemma for_each_delete_script bucket c (objs : list S3Object) w :
  obeys (for_each objs
           (fun obj => invoke (DeleteObject bucket (Key obj))
                              (s3_delete_object c bucket (Key obj))) w)
        (map (DeleteObject bucket) (map Key objs)).
Proof.
  revert w. induction objs as [|obj objs IH]; intro w; simpl.
  - now apply obeys_quiet.
  - apply (obeys_bind _ _ _ [DeleteObject bucket (Key obj)]);
      [now apply obeys_invoke|]. intros _ w1 _ _. apply IH.
Qed.

Lemma delete_s3_objects_script bucket c w :
  exists keys,
    obeys (delete_s3_objects bucket c w) (map (DeleteObject bucket) keys).
Proof.
  unfold delete_s3_objects.
  destruct (s3_list_objects_v2 c bucket w) as [[response|e] w1] eqn:E.
  - exists (match Contents response with
            | Some objs => map Key objs
            | None => []
            end).
    eapply obeys_script_eq;
      [apply (obeys_bind _ _ _ []
                (map (DeleteObject bucket)
                     (match Contents response with
                      | Some objs => map Key objs
                      | None => []
                      end)))|].
    + apply obeys_quiet. unfold invoke. now rewrite E.
    + intros a w1' t1 Ha. unfold invoke in Ha. rewrite E in Ha.
      injection Ha as <- <- <-.
      destruct (Contents response) as [objs|].
      * eapply obeys_script_eq;
          [apply (obeys_bind _ _ _ []
                    (map (DeleteObject bucket) (map Key objs) ++ []))|].
        -- now apply obeys_quiet.
        -- intros objs' w2 t2 Hl. injection Hl as <- <- <-.
           apply obeys_bind; [apply for_each_delete_script|].
           intros. apply obeys_log.
        -- simpl. apply app_nil_r.
      * now apply obeys_quiet.
    + reflexivity.
  - exists []. apply obeys_quiet. unfold bind, invoke. now rewrite E.
Qed.

Lemma delete_s3_bucket_script bucket c w :
  exists keys,
    obeys (delete_s3_bucket bucket c w)
          (map (DeleteObject bucket) keys ++ [DeleteBucket bucket]).
Proof.
  destruct (delete_s3_objects_script bucket c w) as [keys Hobjs].
  exists keys. unfold delete_s3_bucket.
  apply obeys_bind; [exact Hobjs|]. intros _ w1 _ _.
  apply (obeys_bind _ _ _ [DeleteBucket bucket] []);
    [now apply obeys_invoke|]. intros. apply obeys_log.
Qed.

(** *** Clients and the deletion step *)

Lemma get_boto3_clients_return role acct w clients w1 e1 :
  get_boto3_clients environ role acct w = (Return clients, w1, e1) ->
  exists s identity,
    clients = (client s "cloudtrail", client s "s3") /\
    e1 = session_events environ role acct s identity.
Proof.
  unfold get_boto3_clients, get_assumed_role_session, bind, invoke, log, ret.
  fold (role_session_name_of environ).
  destruct (lib_assume_role SESSION role (role_session_name_of environ) w)
    as [[s|e] w'] ; [|discriminate].
  destruct (sts_get_caller_identity s w') as [[identity|e] w''];
    [|discriminate].
  simpl. intro E. injection E as <- <- <-. now exists s, identity.
Qed.

Lemma get_boto3_clients_outcomes role acct w :
  let o := get_boto3_clients environ role acct w in
  mutating_calls (events_of o) = [] /\
  assumed_roles (events_of o) = [role].
Proof.
  unfold get_boto3_clients, get_assumed_role_session, bind, invoke, log, ret.
  destruct (lib_assume_role SESSION role _ w) as [[s|e] w'];
    [|now split].
  destruct (sts_get_caller_identity s w') as [[identity|e] w'']; now split.
Qed.

Lemma resources_resolved role acct w clients w1 e1 cloudtrail w2 e2 :
  get_boto3_clients environ role acct w = (Return clients, w1, e1) ->
  get_cloudtrail environ (fst clients) (CLOUDTRAIL_NAME_PREFIX environ) w1
    = (Return (Some cloudtrail), w2, e2) ->
  delete_cloudtrail_resources environ role acct w =
  if DRY_RUN environ
  then (Return tt, w2, e1 ++ e2 ++ [not_armed (Trail cloudtrail)])
  else
    let o := bind (delete_cloudtrail (TrailARN (Trail cloudtrail))
                                     (fst clients))
                  (fun _ => delete_s3_bucket (S3BucketName (Trail cloudtrail))
                                             (snd clients)) w2 in
    (result_of o, world_of o, e1 ++ e2 ++ events_of o).
Proof.
  intros E1 E2. unfold delete_cloudtrail_resources.
  rewrite (bind_return _ _ _ _ _ _ E1), (bind_return _ _ _ _ _ _ E2).
  destruct (DRY_RUN environ); reflexivity.
Qed.

Lemma resources_lookup_raises role acct w clients w1 e1 e w2 e2 :
  get_boto3_clients environ role acct w = (Return clients, w1, e1) ->
  get_cloudtrail environ (fst clients) (CLOUDTRAIL_NAME_PREFIX environ) w1
    = (Raise e, w2, e2) ->
  delete_cloudtrail_resources environ role acct w = (Raise e, w2, e1 ++ e2).
Proof.
  intros E1 E2. unfold delete_cloudtrail_resources.
  now rewrite (bind_return _ _ _ _ _ _ E1), (bind_raise _ _ _ _ _ _ E2).
Qed.

Lemma live_deletion_script arn bucket c1 c2 w :
  exists keys,
    obeys (bind (delete_cloudtrail arn c1)
                (fun _ => delete_s3_bucket bucket c2) w)
          (deletion_script arn bucket keys).
Proof.
  assert (Hall : forall w1, exists keys,
            obeys (delete_s3_bucket bucket c2 w1)
                  (map (DeleteObject bucket) keys ++ [DeleteBucket bucket]))
    by (intro; apply delete_s3_bucket_script).
  destruct (delete_cloudtrail arn c1 w) as [[[[]|e] w1] t1] eqn:E.
  - destruct (Hall w1) as [keys Hkeys]. exists keys.
    apply (obeys_bind _ _ _ [StopLogging arn; DeleteTrail arn]).
    + apply delete_cloudtrail_script.
    + intros a w1' t1' Ha. rewrite E in Ha. injection Ha as _ <- _.
      exact Hkeys.
  - exists []. apply (obeys_bind _ _ _ [StopLogging arn; DeleteTrail arn]).
    + apply delete_cloudtrail_script.
    + intros a w1' t1' Ha. rewrite E in Ha. discriminate.
Qed.

(** In a trace that keeps to the deletion script, a bucket deletion is
    the last mutating call and everything else came before it. *)
Lemma bucket_deleted_last arn bucket keys (pre post rest : list Call) b :
  deletion_script arn bucket keys = (pre ++ DeleteBucket b :: post) ++ rest ->
  b = bucket /\ post = [] /\ rest = [] /\
  pre = StopLogging arn :: DeleteTrail arn :: map (DeleteObject bucket) keys.
Proof.
  unfold deletion_script.
  change (StopLogging arn :: DeleteTrail arn ::
          map (DeleteObject bucket) keys ++ [DeleteBucket bucket])
    with ((StopLogging arn :: DeleteTrail arn ::
           map (DeleteObject bucket) keys) ++ [DeleteBucket bucket]).
  assert (Hfront : Forall (fun c => forall b', c <> DeleteBucket b')
            (StopLogging arn :: DeleteTrail arn ::
             map (DeleteObject bucket) keys)).
  { repeat constructor; try discriminate.
    apply Forall_forall. intros c Hc. apply in_map_iff in Hc.
    destruct Hc as (k & <- & _). discriminate. }
  revert Hfront.
  generalize (StopLogging arn :: DeleteTrail arn ::
              map (DeleteObject bucket) keys) as front.
  intro front. revert pre.
  induction front as [|x front IH]; intros pre Hfront Heq.
  - destruct pre as [|p pre]; simpl in Heq.
    + injection Heq as Hb Hrest. subst b.
      symmetry in Hrest. apply app_eq_nil in Hrest. tauto.
    + injection Heq as _ Hnil. destruct pre; discriminate.
  - inversion Hfront as [|? ? Hx Hfront']; subst.
    destruct pre as [|p pre]; simpl in Heq.
    + injection Heq as Hb _. now destruct (Hx b).
    + injection Heq as <- Heq.
      destruct (IH pre Hfront' Heq) as (-> & -> & -> & ->). tauto.
Qed.

Lemma resolved_lookups_quiet role acct w clients w1 e1 r w2 e2 :
  get_boto3_clients environ role acct w = (Return clients, w1, e1) ->
  get_cloudtrail environ (fst clients) (CLOUDTRAIL_NAME_PREFIX environ) w1
    = (r, w2, e2) ->
  mutating_calls e1 = [] /\ mutating_calls e2 = [] /\
  assumed_roles e1 = [role] /\ assumed_roles e2 = [].
Proof.
  intros E1 E2.
  pose proof (get_boto3_clients_outcomes role acct w) as Hc.
  pose proof (get_cloudtrail_outcomes (fst clients)
                (CLOUDTRAIL_NAME_PREFIX environ) w1) as Hl.
  rewrite E1 in Hc. rewrite E2 in Hl. simpl in Hc, Hl. tauto.
Qed.

(** C2: live mode, trail resolved.  The mutating calls follow the script
    stop-logging, delete-trail, one delete-object per key of the trail's
    bucket, delete-bucket: what was called is an initial segment of it,
    and all of it once the run returns.  Wherever a delete-bucket call
    stands in the trace it is for the trail's bucket, nothing mutating
    follows it, and stop-logging, delete-trail and the delete-object
    calls all stand before it. *)
Theorem C2_live_deletion_order :
  forall role acct (w : W) clients w1 e1 cloudtrail w2 e2,
    DRY_RUN environ = false ->
    get_boto3_clients environ role acct w = (Return clients, w1, e1) ->
    get_cloudtrail environ (fst clients) (CLOUDTRAIL_NAME_PREFIX environ) w1
      = (Return (Some cloudtrail), w2, e2) ->
    let arn := TrailARN (Trail cloudtrail) in
    let bucket := S3BucketName (Trail cloudtrail) in
    let run := delete_cloudtrail_resources environ role acct w in
    (exists keys,
       is_prefix (mutating_calls (events_of run))
                 (deletion_script arn bucket keys) /\
       (result_of run = Return tt ->
        mutating_calls (events_of run) = deletion_script arn bucket keys)) /\
    (forall pre b post,
       mutating_calls (events_of run) = pre ++ DeleteBucket b :: post ->
       b = bucket /\ post = [] /\
       exists keys,
         pre = StopLogging arn :: DeleteTrail arn ::
               map (DeleteObject bucket) keys).
Proof.
  intros role acct w clients w1 e1 cloudtrail w2 e2 Hlive E1 E2 arn bucket run.
  destruct (resolved_lookups_quiet _ _ _ _ _ _ _ _ _ E1 E2)
    as (Hq1 & Hq2 & _ & _).
  destruct (live_deletion_script arn bucket (fst clients) (snd clients) w2)
    as [keys [Hpre Hdone]].
  assert (Hrun : mutating_calls (events_of run) =
                 mutating_calls
                   (events_of
                      (bind (delete_cloudtrail arn (fst clients))
                            (fun _ => delete_s3_bucket bucket (snd clients))
                            w2))).
  { unfold run. rewrite (resources_resolved _ _ _ _ _ _ _ _ _ E1 E2), Hlive.
    unfold events_of at 1. simpl snd.
    now rewrite !mutating_calls_app, Hq1, Hq2. }
  assert (Hres : result_of run =
                 result_of
                   (bind (delete_cloudtrail arn (fst clients))
                         (fun _ => delete_s3_bucket bucket (snd clients))
                         w2)).
  { unfold run. rewrite (resources_resolved _ _ _ _ _ _ _ _ _ E1 E2), Hlive.
    reflexivity. }
  rewrite Hrun, Hres. split.
  - exists keys. split; [exact Hpre|]. intro Hret. exact (Hdone tt Hret).
  - intros pre b post Heq. destruct Hpre as [rest Hscript].
    rewrite Heq in Hscript.
    destruct (bucket_deleted_last _ _ _ _ _ _ _ Hscript)
      as (-> & -> & _ & ->).
    split; [reflexivity|]. split; [reflexivity|]. now exists keys.
Qed.

(** *** Dry runs *)

Lemma get_boto3_clients_keeps_world role acct w :
  lookups_keep_world ->
  world_of (get_boto3_clients environ role acct w) = w.
Proof.
  intros (Hid & Hrole & _ & _).
  unfold get_boto3_clients, get_assumed_role_session, bind, invoke, log, ret.
  pose proof (Hrole SESSION role (role_session_name_of environ) w) as Hw'.
  unfold role_session_name_of in Hw'.
  destruct (lib_assume_role SESSION role _ w) as [[s|e] w'];
    simpl in Hw'; subst w'; [|reflexivity].
  pose proof (Hid s w) as Hw''.
  destruct (sts_get_caller_identity s w) as [[identity|e] w''];
    simpl in Hw''; subst w''; reflexivity.
Qed.

Lemma get_cloudtrail_keeps_world c prefix w :
  lookups_keep_world ->
  world_of (get_cloudtrail environ c prefix w) = w.
Proof.
  intros (_ & _ & Hlist & Hget).
  pose proof (Hlist c w) as Hw1.
  destruct (cloudtrail_describe_trails c w) as [[T|e] w1] eqn:E;
    simpl in Hw1; subst w1.
  - destruct (matching prefix T) as [|t [|t' rest]] eqn:Em.
    + rewrite (get_cloudtrail_none _ _ _ _ _ E Em).
      now destruct (ERROR_NOT_FOUND environ).
    + rewrite (get_cloudtrail_single _ _ _ _ _ _ E Em).
      pose proof (Hget c (Name t) w) as Hw2.
      destruct (cloudtrail_get_trail c (Name t) w) as [[trail|e] w2];
        simpl in Hw2; subst w2; [reflexivity|]. now destruct e.
    + now rewrite (get_cloudtrail_multiple _ _ _ _ _ E)
        by (rewrite Em; simpl; lia).
  - rewrite (get_cloudtrail_listing_fails _ _ _ _ _ E). now destruct e.
Qed.

Lemma rerun_fixed (once : M W unit) w evs n :
  once w = (Return tt, w, evs) ->
  rerun n once w = (Return tt, w, concat (repeat evs n)).
Proof.
  intro Honce. induction n as [|n IH]; simpl; [reflexivity|].
  now rewrite (bind_return _ _ _ _ _ _ Honce), IH.
Qed.

Lemma mutating_calls_repeat evs n :
  mutating_calls evs = [] -> mutating_calls (concat (repeat evs n)) = [].
Proof.
  intro Hq. induction n as [|n IH]; simpl; [reflexivity|].
  now rewrite mutating_calls_app, Hq, IH.
Qed.

(** C3: dry run, trail resolved, lookups that leave the account as it
    is.  The run returns with the account unchanged, makes no mutating
    call, and ends with the WARNING line that carries the trail's ARN
    and bucket name; any number of runs, one after the other, make no
    mutating call and produce that same trace each time. *)
Theorem C3_dry_run_is_inert :
  forall role acct (w : W) clients w1 e1 cloudtrail w2 e2 (n : nat),
    lookups_keep_world ->
    DRY_RUN environ = true ->
    get_boto3_clients environ role acct w = (Return clients, w1, e1) ->
    get_cloudtrail environ (fst clients) (CLOUDTRAIL_NAME_PREFIX environ) w1
      = (Return (Some cloudtrail), w2, e2) ->
    let once := delete_cloudtrail_resources environ role acct in
    let line :=
      Log WARNING [ Lit "NOT ARMED: Cloudtrail ARN: ";
                    PStr (TrailARN (Trail cloudtrail));
                    Lit ", S3 Bucket Name: ";
                    PStr (S3BucketName (Trail cloudtrail)) ] in
    once w = (Return tt, w, e1 ++ e2 ++ [line]) /\
    mutating_calls (events_of (once w)) = [] /\
    rerun n once w = (Return tt, w, concat (repeat (e1 ++ e2 ++ [line]) n)) /\
    mutating_calls (events_of (rerun n once w)) = [].
Proof.
  intros role acct w clients w1 e1 cloudtrail w2 e2 n Hkeep Hdry E1 E2
         once line.
  destruct (resolved_lookups_quiet _ _ _ _ _ _ _ _ _ E1 E2)
    as (Hq1 & Hq2 & _ & _).
  assert (Hw1 : w1 = w).
  { pose proof (get_boto3_clients_keeps_world role acct w Hkeep) as Hk.
    now rewrite E1 in Hk. }
  subst w1.
  assert (Hw2 : w2 = w).
  { pose proof (get_cloudtrail_keeps_world (fst clients)
                  (CLOUDTRAIL_NAME_PREFIX environ) w Hkeep) as Hk.
    now rewrite E2 in Hk. }
  subst w2.
  assert (Honce : once w = (Return tt, w, e1 ++ e2 ++ [line])).
  { unfold once.
    now rewrite (resources_resolved _ _ _ _ _ _ _ _ _ E1 E2), Hdry. }
  assert (Hquiet : mutating_calls (e1 ++ e2 ++ [line]) = []).
  { now rewrite !mutating_calls_app, Hq1, Hq2. }
  split; [exact Honce|]. split; [now rewrite Honce|].
  rewrite (rerun_fixed _ _ _ n Honce). split; [reflexivity|].
  now apply mutating_calls_repeat.
Qed.

(** *** Several matches *)

(** C4: when two or more names of the listing start with the configured
    prefix, the run raises [MultipleCloudtrailsFoundError] (whatever
    ERROR_NOT_FOUND is: the statement holds for every environment),
    fetches no trail, and makes no mutating call. *)
Theorem C4_multiple_matches_never_resolved :
  forall role acct (w : W) clients w1 e1 T w2,
    get_boto3_clients environ role acct w = (Return clients, w1, e1) ->
    cloudtrail_describe_trails (fst clients) w1 = (Return T, w2) ->
    2 <= length (matching (CLOUDTRAIL_NAME_PREFIX environ) T) ->
    let names := map Name (matching (CLOUDTRAIL_NAME_PREFIX environ) T) in
    let failure := multiple_found_error (CLOUDTRAIL_NAME_PREFIX environ) names in
    let run := delete_cloudtrail_resources environ role acct w in
    get_cloudtrail environ (fst clients) (CLOUDTRAIL_NAME_PREFIX environ) w1
      = (Raise (MultipleCloudtrailsFoundError failure), w2,
         [Api DescribeTrails; Log ERROR failure]) /\
    run = (Raise (MultipleCloudtrailsFoundError failure), w2,
           e1 ++ [Api DescribeTrails; Log ERROR failure]) /\
    (forall name, ~ In (Api (GetTrail name)) (events_of run)) /\
    mutating_calls (events_of run) = [].
Proof.
  intros role acct w clients w1 e1 T w2 E1 Elist Hmany names failure run.
  pose proof (get_cloudtrail_multiple _ _ _ _ _ Elist Hmany) as Hlookup.
  fold names in Hlookup. fold failure in Hlookup.
  assert (Hrun : run = (Raise (MultipleCloudtrailsFoundError failure), w2,
                        e1 ++ [Api DescribeTrails; Log ERROR failure]))
    by (apply (resources_lookup_raises _ _ _ _ _ _ _ _ _ E1 Hlookup)).
  destruct (get_boto3_clients_return _ _ _ _ _ _ E1)
    as (s & identity & _ & He1).
  split; [exact Hlookup|]. split; [exact Hrun|]. rewrite Hrun.
  unfold events_of. simpl snd. subst e1. split.
  - intros name HIn. simpl in HIn.
    repeat (destruct HIn as [HIn | HIn]; [discriminate HIn|]).
    exact HIn.
  - reflexivity.
Qed.

(** *** The role that is assumed *)

Lemma assumes_nothing_bind {A B} (m : M W A) (f : A -> M W B) w :
  assumed_roles (events_of (m w)) = [] ->
  (forall a w1, assumed_roles (events_of (f a w1)) = []) ->
  assumed_roles (events_of (bind m f w)) = [].
Proof.
  intros Hm Hf. destruct (m w) as [[[a|e] w1] t1] eqn:E;
    unfold events_of in Hm; simpl in Hm.
  - rewrite (bind_return _ _ _ _ _ _ E). unfold events_of at 1. simpl snd.
    now rewrite assumed_roles_app, Hm, Hf.
  - now rewrite (bind_raise _ _ _ _ _ _ E).
Qed.

Lemma assumed_roles_bind_return {A B} (m : M W A) (f : A -> M W B)
    w a w1 t1 :
  m w = (Return a, w1, t1) ->
  assumed_roles (events_of (bind m f w)) =
  assumed_roles t1 ++ assumed_roles (events_of (f a w1)).
Proof.
  intro E. rewrite (bind_return _ _ _ _ _ _ E). apply assumed_roles_app.
Qed.

Lemma assumed_roles_bind_quiet_tail {A B} (m : M W A) (f : A -> M W B) w :
  (forall a w1, assumed_roles (events_of (f a w1)) = []) ->
  assumed_roles (events_of (bind m f w)) = assumed_roles (events_of (m w)).
Proof.
  intro Hf. destruct (m w) as [[[a|e] w1] t1] eqn:E.
  - rewrite (assumed_roles_bind_return _ _ _ _ _ _ E), Hf.
    apply app_nil_r.
  - now rewrite (bind_raise _ _ _ _ _ _ E).
Qed.

Lemma assumes_nothing_invoke {A} (c : Call) (op : W -> Result A * W) w :
  (forall a n, c <> AssumeRole a n) ->
  assumed_roles (events_of (invoke c op w)) = [].
Proof.
  intro Hc. unfold invoke. destruct (op w) as [r w1].
  destruct c; try reflexivity. now destruct (Hc role_arn role_session_name).
Qed.

Lemma deletion_assumes_nothing arn bucket c1 c2 w :
  assumed_roles
    (events_of (bind (delete_cloudtrail arn c1)
                     (fun _ => delete_s3_bucket bucket c2) w)) = [].
Proof.
  assert (Hloop : forall objs w1,
    assumed_roles
      (events_of
         (for_each objs
            (fun obj => invoke (DeleteObject bucket (Key obj))
                               (s3_delete_object c2 bucket (Key obj))) w1))
    = []).
  { induction objs as [|obj objs IH]; intro w1; simpl; [reflexivity|].
    apply assumes_nothing_bind; [|intros; apply IH].
    now apply assumes_nothing_invoke. }
  unfold delete_cloudtrail, delete_s3_bucket, delete_s3_objects.
  apply assumes_nothing_bind.
  - apply assumes_nothing_bind; [now apply assumes_nothing_invoke|].
    intros _ w1.
    apply assumes_nothing_bind; [now apply assumes_nothing_invoke|].
    reflexivity.
  - intros _ w1. apply assumes_nothing_bind.
    + apply assumes_nothing_bind; [now apply assumes_nothing_invoke|].
      intros response w2. apply assumes_nothing_bind.
      { destruct (Contents response); reflexivity. }
      intros objs w3. apply assumes_nothing_bind; [apply Hloop|].
      reflexivity.
    + intros _ w2.
      apply assumes_nothing_bind; [now apply assumes_nothing_invoke|].
      reflexivity.
Qed.

Lemma resources_assume_once role acct w :
  assumed_roles
    (events_of (delete_cloudtrail_resources environ role acct w)) = [role].
Proof.
  pose proof (get_boto3_clients_outcomes role acct w) as [_ Hc].
  destruct (get_boto3_clients environ role acct w)
    as [[[clients|e] w1] e1] eqn:E1; simpl in Hc.
  - pose proof (get_cloudtrail_outcomes (fst clients)
                  (CLOUDTRAIL_NAME_PREFIX environ) w1) as (_ & Hl & _).
    destruct (get_cloudtrail environ (fst clients)
                (CLOUDTRAIL_NAME_PREFIX environ) w1)
      as [[[[cloudtrail|]|e] w2] e2] eqn:E2; simpl in Hl.
    + rewrite (resources_resolved _ _ _ _ _ _ _ _ _ E1 E2).
      destruct (DRY_RUN environ); unfold events_of at 1; simpl snd;
        rewrite !assumed_roles_app, Hc, Hl; [reflexivity|].
      now rewrite deletion_assumes_nothing.
    + unfold delete_cloudtrail_resources.
      rewrite (bind_return _ _ _ _ _ _ E1), (bind_return _ _ _ _ _ _ E2).
      unfold events_of at 1. simpl snd.
      now rewrite !assumed_roles_app, Hc, Hl.
    + rewrite (resources_lookup_raises _ _ _ _ _ _ _ _ _ E1 E2).
      unfold events_of. simpl snd. now rewrite assumed_roles_app, Hc, Hl.
  - unfold delete_cloudtrail_resources.
    now rewrite (bind_raise _ _ _ _ _ _ E1).
Qed.

Lemma get_partition_run w caller w1 partition :
  sts_get_caller_identity DefaultSession w = (Return caller, w1) ->
  nth_error (split ":" caller) 1 = Some partition ->
  get_partition w =
  (Return partition, w1, [Api (GetCallerIdentity DefaultSession)]).
Proof.
  intros Hid Hnth. unfold get_partition, bind, invoke, lift, list_getitem.
  now rewrite Hid, Hnth.
Qed.

(** C9, as amended: let the caller's identity ARN be [caller], with
    [partition] its second ":"-separated field.  In event mode the one
    role ARN handed to [assume_role] is
    [arn:<partition>:iam::<account-id>:role/<ASSUME_ROLE_NAME>], the
    account id being the text of the extracted value (itself, for a
    string); in CLI mode with a non-empty [--assume-role-name] it is
    [arn:<partition>:iam::<target-account-id>:role/<name>]. *)
Theorem C9_role_arn_is_built_from_partition :
  forall (w w1 : W) (caller partition : string),
    sts_get_caller_identity DefaultSession w = (Return caller, w1) ->
    nth_error (split ":" caller) 1 = Some partition ->
    (forall event context account_id,
       get_account_id event = Return account_id ->
       assumed_roles (events_of (lambda_handler environ event context w)) =
       [Some ("arn:" ++ partition ++ ":iam::" ++ py_str account_id ++ ":role/"
              ++ ASSUME_ROLE_NAME environ)%string]) /\
    (forall target_account_id assume_role_arn name identity w2,
       name <> EmptyString ->
       sts_get_caller_identity SESSION w1 = (Return identity, w2) ->
       assumed_roles
         (events_of (cli_main environ target_account_id assume_role_arn
                              (Some name) w)) =
       [Some ("arn:" ++ partition ++ ":iam::" ++ target_account_id
              ++ ":role/" ++ name)%string]).
Proof.
  intros w w1 caller partition Hid Hnth.
  pose proof (get_partition_run _ _ _ _ Hid Hnth) as Hpart. split.
  - intros event context account_id Hacct.
    unfold lambda_handler.
    rewrite (assumed_roles_bind_return _ _ w tt w
               [Log DEBUG [Lit "AWS Event:"; PVal event]]) by reflexivity.
    rewrite (assumed_roles_bind_return _ _ w account_id w [])
      by (unfold lift; now rewrite Hacct).
    rewrite (assumed_roles_bind_return _ _ _ _ _ _ Hpart).
    rewrite resources_assume_once. reflexivity.
  - intros target arn0 name identity w2 Hname Hmain.
    assert (Htruthy : truthy (Some name) = true)
      by (destruct name; [now destruct Hname | reflexivity]).
    unfold cli_main. rewrite Htruthy.
    rewrite (assumed_roles_bind_return _ _ w tt w
               [Log DEBUG [ Lit "CLI - target_account_id="; PStr target;
                            Lit " assume_role_arn="; POpt arn0;
                            Lit " assume_role_name="; POpt (Some name) ]])
      by reflexivity.
    rewrite (assumed_roles_bind_return _ _ w
               (Some (role_arn_of partition target name)) w1
               ([Api (GetCallerIdentity DefaultSession)] ++
                [Log INFO [ Lit "assume_role_arn for provided role name is '";
                            PStr (role_arn_of partition target name);
                            Lit "'" ]]))
      by (now rewrite (bind_return _ _ _ _ _ _ Hpart)).
    unfold main.
    rewrite (assumed_roles_bind_return _ _ w1 identity w2
               [Api (GetCallerIdentity SESSION)])
      by (unfold invoke; now rewrite Hmain).
    rewrite (assumed_roles_bind_return _ _ w2 tt w2
               [Log DEBUG [Lit "Main identity is "; PStr identity]])
      by reflexivity.
    rewrite assumed_roles_bind_quiet_tail
      by (intros; now destruct (DRY_RUN environ)).
    rewrite resources_assume_once. reflexivity.
Qed.

End Theory.

(** ** Runs against the simulated account *)

Lemma C1_witness :
  get_cloudtrail Sim.dry (client DefaultSession "cloudtrail") "cloudtrail-"
                 Sim.account1
  = (Return (Some (mkGetTrail Sim.prod)), Sim.account1,
     [Api DescribeTrails; Api (GetTrail "cloudtrail-prod")]).
Proof.
  assert (Hlist : cloudtrail_describe_trails
                    (client DefaultSession "cloudtrail") Sim.account1
                  = (Return (Sim.trails Sim.account1), Sim.account1))
    by reflexivity.
  destruct (C1_resolution_by_match_count Sim.dry _ "cloudtrail-" _ _ _ Hlist)
    as [Hone _].
  apply (Hone Sim.prod); reflexivity.
Defined.

Lemma C2_witness :
  DRY_RUN Sim.live = false /\
  let run := delete_cloudtrail_resources Sim.live Sim.role Sim.acct
                                         Sim.account1 in
  (exists keys,
     is_prefix (mutating_calls (events_of run))
               (deletion_script (TrailARN Sim.prod) "my-trail-bucket" keys) /\
     (result_of run = Return tt ->
      mutating_calls (events_of run) =
      deletion_script (TrailARN Sim.prod) "my-trail-bucket" keys)) /\
  (forall pre b post,
     mutating_calls (events_of run) = pre ++ DeleteBucket b :: post ->
     b = "my-trail-bucket" /\ post = [] /\
     exists keys,
       pre = StopLogging (TrailARN Sim.prod) :: DeleteTrail (TrailARN Sim.prod)
             :: map (DeleteObject "my-trail-bucket") keys).
Proof.
  split; [reflexivity|].
  evaluated E1 (get_boto3_clients Sim.live Sim.role Sim.acct Sim.account1).
  evaluated E2 (get_cloudtrail Sim.live
                  (client (AssumedSession Sim.role "delete_default_cloudtrail.py")
                          "cloudtrail")
                  (CLOUDTRAIL_NAME_PREFIX Sim.live) Sim.account1).
  assert (Hlive : DRY_RUN Sim.live = false) by reflexivity.
  exact (C2_live_deletion_order Sim.live Sim.role Sim.acct Sim.account1
           _ _ _ _ _ _ Hlive E1 E2).
Defined.

Lemma C3_witness :
  DRY_RUN Sim.dry = true /\
  mutating_calls
    (events_of (rerun 3 (delete_cloudtrail_resources Sim.dry Sim.role Sim.acct)
                      Sim.account1)) = [] /\
  In (Log WARNING [ Lit "NOT ARMED: Cloudtrail ARN: ";
                    PStr (TrailARN Sim.prod);
                    Lit ", S3 Bucket Name: "; PStr "my-trail-bucket" ])
     (events_of (delete_cloudtrail_resources Sim.dry Sim.role Sim.acct
                                             Sim.account1)).
Proof.
  split; [reflexivity|].
  assert (Hkeep : @lookups_keep_world Sim.Account _).
  { repeat split.
    - intros [|[arn|] n] w; simpl; [reflexivity| |reflexivity].
      unfold Sim.guard. now destruct (Sim.refused _ w).
    - intros c w. simpl. unfold Sim.describe_trails, Sim.guard.
      now destruct (Sim.refused _ w).
    - intros c n w. simpl. unfold Sim.get_trail, Sim.guard.
      destruct (Sim.refused _ w); [reflexivity|].
      now destruct (find _ _). }
  evaluated E1 (get_boto3_clients Sim.dry Sim.role Sim.acct Sim.account1).
  evaluated E2 (get_cloudtrail Sim.dry
                  (client (AssumedSession Sim.role "delete_default_cloudtrail.py")
                          "cloudtrail")
                  (CLOUDTRAIL_NAME_PREFIX Sim.dry) Sim.account1).
  assert (Hdry : DRY_RUN Sim.dry = true) by reflexivity.
  destruct (C3_dry_run_is_inert Sim.dry Sim.role Sim.acct Sim.account1
              _ _ _ _ _ _ 3 Hkeep Hdry E1 E2)
    as (Honce & _ & _ & Hquiet).
  split; [exact Hquiet|].
  rewrite Honce. unfold events_of. simpl.
  repeat first [left; reflexivity | right].
Defined.

Lemma C4_witness :
  let run := delete_cloudtrail_resources Sim.lenient Sim.role Sim.acct
                                         Sim.account2 in
  result_of run =
    Raise (MultipleCloudtrailsFoundError
             (multiple_found_error "cloudtrail-"
                                   ["cloudtrail-prod"; "cloudtrail-dev"])) /\
  (forall name, ~ In (Api (GetTrail name)) (events_of run)) /\
  mutating_calls (events_of run) = [].
Proof.
  evaluated E1 (get_boto3_clients Sim.lenient Sim.role Sim.acct Sim.account2).
  assert (Elist : cloudtrail_describe_trails
                    (client (AssumedSession Sim.role
                                            "delete_default_cloudtrail.py")
                            "cloudtrail") Sim.account2
                  = (Return (Sim.trails Sim.account2), Sim.account2))
    by reflexivity.
  assert (Hmany : 2 <= length (matching (CLOUDTRAIL_NAME_PREFIX Sim.lenient)
                                        (Sim.trails Sim.account2)))
    by (vm_compute; lia).
  destruct (C4_multiple_matches_never_resolved Sim.lenient Sim.role Sim.acct
              Sim.account2 _ _ _ _ _ E1 Elist Hmany)
    as (_ & Hrun & Hfetch & Hquiet).
  cbv zeta. split; [now rewrite Hrun|]. split; [exact Hfetch | exact Hquiet].
Defined.

Lemma C9_witness :
  assumed_roles
    (events_of (lambda_handler Sim.dry created_event VNone Sim.account1))
  = [Some "arn:aws:iam::111111111111:role/OrganizationAccountAccessRole"] /\
  assumed_roles
    (events_of (cli_main Sim.dry "111111111111" None (Some "Admin")
                         Sim.account1))
  = [Some "arn:aws:iam::111111111111:role/Admin"].
Proof.
  assert (Hid : sts_get_caller_identity DefaultSession Sim.account1
                = (Return Sim.caller, Sim.account1)) by reflexivity.
  assert (Hnth : nth_error (split ":" Sim.caller) 1 = Some "aws")
    by reflexivity.
  destruct (C9_role_arn_is_built_from_partition Sim.dry _ _ _ _ Hid Hnth)
    as [Hevent Hcli].
  split.
  - apply (Hevent created_event VNone (VStr "111111111111")). reflexivity.
  - apply (Hcli "111111111111" None "Admin" Sim.caller Sim.account1);
      [discriminate | reflexivity].
Defined.

(** C9 as the specification words it fails in CLI mode when
    [--assume-role-name] is the empty string: no ARN is built and
    [assume_role] receives [None]. *)
Lemma C9_counterexample :
  assumed_roles
    (events_of (cli_main Sim.dry "111111111111" None (Some EmptyString)
                         Sim.account1))
  = [None] /\
  assumed_roles
    (events_of (cli_main Sim.dry "111111111111" None (Some EmptyString)
                         Sim.account1))
  <> [Some "arn:aws:iam::111111111111:role/"].
Proof. split; [vm_compute; reflexivity | vm_compute; discriminate]. Qed.

(** ** Emptying a bucket *)

Section EmptyingBuckets.
Context {W : Type} `{Services W}.

Lemma delete_s3_bucket_without_contents bucket c (w w1 : W) :
  s3_list_objects_v2 c bucket w = (Return (mkListObjects None), w1) ->
  delete_s3_bucket bucket c w =
  (Raise (KeyError (VStr "Contents")), w1, [Api (ListObjectsV2 bucket)]).
Proof.
  intro E. unfold delete_s3_bucket, delete_s3_objects, bind, invoke, lift.
  now rewrite E.
Qed.

Lemma delete_s3_bucket_with_no_objects bucket c (w w1 w2 : W) :
  s3_list_objects_v2 c bucket w = (Return (mkListObjects (Some [])), w1) ->
  s3_delete_bucket c bucket w1 = (Return tt, w2) ->
  result_of (delete_s3_bucket bucket c w) = Return tt /\
  api_calls (events_of (delete_s3_bucket bucket c w)) =
  [ListObjectsV2 bucket; DeleteBucket bucket].
Proof.
  intros E1 E2.
  unfold delete_s3_bucket, delete_s3_objects, bind, invoke, lift, log.
  rewrite E1. simpl. rewrite E2. now split.
Qed.
End EmptyingBuckets.

Lemma NoDup_app_disjoint {A} (xs ys : list A) (a : A) :
  NoDup (xs ++ ys) -> In a xs -> ~ In a ys.
Proof.
  induction xs as [|x xs IH]; simpl; intros Hnd Hin; [destruct Hin|].
  apply NoDup_cons_iff in Hnd as [Hx Hnd].
  destruct Hin as [<- | Hin]; [|now apply IH].
  intro Hy. apply Hx. apply in_or_app. now right.
Qed.

Lemma remove_key_absent (k : string) (keys : list string) :
  ~ In k keys -> Sim.remove_key k keys = keys.
Proof.
  induction keys as [|k' keys IH]; simpl; intro Hk; [reflexivity|].
  destruct (String.eqb_spec k' k) as [-> | Hne]; simpl.
  - destruct Hk. now left.
  - rewrite IH; [reflexivity|]. intro Hin. apply Hk. now right.
Qed.

Lemma remove_keys_of_page (page rest : list string) :
  NoDup (page ++ rest) ->
  fold_left (fun acc k => Sim.remove_key k acc) page (page ++ rest) = rest.
Proof.
  induction page as [|k page IH]; simpl; intro Hnd; [reflexivity|].
  apply NoDup_cons_iff in Hnd as [Hk Hnd].
  rewrite String.eqb_refl. simpl.
  rewrite (remove_key_absent _ _ Hk). now apply IH.
Qed.

Lemma assoc_put_bucket b keys keys' bs :
  assoc b bs = Some keys ->
  assoc b (Sim.put_bucket b keys' bs) = Some keys'.
Proof.
  induction bs as [|[b' ks] bs IH]; simpl; [discriminate|].
  destruct (String.eqb b b') eqn:Eb; simpl; rewrite Eb; [reflexivity|].
  exact IH.
Qed.

Lemma unrestricted_guard {A} op (w : Sim.Account)
    (answer : Result A * Sim.Account) :
  Sim.denied w = [] -> Sim.guard op w answer = answer.
Proof. intro Hd. unfold Sim.guard, Sim.refused. now rewrite Hd. Qed.

Lemma sim_delete_page bucket c (page : list string) :
  forall (w : Sim.Account) (keys : list string),
    Sim.denied w = [] ->
    assoc bucket (Sim.buckets w) = Some keys ->
    let o := for_each (map mkObject page)
               (fun obj => invoke (DeleteObject bucket (Key obj))
                                  (s3_delete_object c bucket (Key obj))) w in
    result_of o = Return tt /\
    events_of o = map (fun k => Api (DeleteObject bucket k)) page /\
    assoc bucket (Sim.buckets (world_of o)) =
      Some (fold_left (fun acc k => Sim.remove_key k acc) page keys) /\
    Sim.denied (world_of o) = [].
Proof.
  induction page as [|k page IH]; intros w keys Hd Hb; simpl.
  - now repeat split.
  - assert (Estep :
      invoke (DeleteObject bucket k) (s3_delete_object c bucket k) w =
      (Return tt,
       Sim.with_buckets w
         (Sim.put_bucket bucket (Sim.remove_key k keys) (Sim.buckets w)),
       [Api (DeleteObject bucket k)])).
    { unfold invoke. simpl. unfold Sim.delete_object.
      now rewrite (unrestricted_guard _ _ _ Hd), Hb. }
    rewrite (bind_return _ _ _ _ _ _ Estep).
    pose proof (IH (Sim.with_buckets w
                      (Sim.put_bucket bucket (Sim.remove_key k keys)
                                      (Sim.buckets w)))
                   (Sim.remove_key k keys) Hd
                   (assoc_put_bucket _ _ _ _ Hb)) as IHw.
    cbv zeta in IHw.
    destruct (for_each (map mkObject page) _ _) as [[r' w''] t'].
    unfold result_of, events_of, world_of in *. simpl in *.
    destruct IHw as (-> & -> & Hk & Hd'). now repeat split.
Qed.

Lemma api_calls_of_deletions bucket (page : list string) :
  api_calls (map (fun k => Api (DeleteObject bucket k)) page) =
  map (DeleteObject bucket) page.
Proof. induction page as [|k page IH]; simpl; [reflexivity | now rewrite IH]. Qed.

Lemma sim_delete_s3_objects bucket c (w : Sim.Account) k keys :
  Sim.denied w = [] ->
  assoc bucket (Sim.buckets w) = Some (k :: keys) ->
  let page := firstn (Sim.page_size w) (k :: keys) in
  let o := delete_s3_objects bucket c w in
  result_of o = Return tt /\
  events_of o =
    Api (ListObjectsV2 bucket) ::
    map (fun k => Api (DeleteObject bucket k)) page ++
    [Log DEBUG [ Lit "All objects from s3 bucket "; PStr bucket;
                 Lit " have been deleted." ]] /\
  assoc bucket (Sim.buckets (world_of o)) =
    Some (fold_left (fun acc k => Sim.remove_key k acc) page (k :: keys)) /\
  Sim.denied (world_of o) = [].
Proof.
  intros Hd Hb page o.
  assert (Elist :
    invoke (ListObjectsV2 bucket) (s3_list_objects_v2 c bucket) w =
    (Return (mkListObjects (Some (map mkObject page))), w,
     [Api (ListObjectsV2 bucket)])).
  { unfold invoke. simpl. unfold Sim.list_objects_v2.
    now rewrite (unrestricted_guard _ _ _ Hd), Hb. }
  pose proof (sim_delete_page bucket c page w (k :: keys) Hd Hb) as Hloop.
  cbv zeta in Hloop.
  unfold o, delete_s3_objects.
  rewrite (bind_return _ _ _ _ _ _ Elist).
  rewrite (bind_return _ _ w (map mkObject page) w []) by reflexivity.
  destruct (for_each (map mkObject page) _ w) as [[r w'] t] eqn:Eloop.
  unfold result_of, events_of, world_of in Hloop. simpl in Hloop.
  destruct Hloop as (-> & -> & Hk & Hd').
  rewrite (bind_return _ _ _ _ _ _ Eloop).
  unfold result_of, events_of, world_of. simpl. now repeat split.
Qed.

(** C8: on the simulated S3, for every bucket (its keys in listing order,
    each key once) the object-deletion step makes one list-objects call,
    then one delete-object call per key of the first page, in that order,
    and leaves in the bucket exactly the keys beyond the first page, none
    of which it asks to delete; when the bucket holds more keys than a
    page, [delete_s3_bucket] then calls delete-bucket, which fails with
    BucketNotEmpty, and the bucket stays. *)
Theorem C8_only_first_page_is_deleted :
  forall (w : Sim.Account) (c : Client) (bucket : string)
         (keys : list string),
    Sim.denied w = [] ->
    assoc bucket (Sim.buckets w) = Some keys ->
    NoDup keys ->
    let page := firstn (Sim.page_size w) keys in
    let beyond := skipn (Sim.page_size w) keys in
    let run := delete_s3_objects bucket c w in
    api_calls (events_of run) =
      ListObjectsV2 bucket :: map (DeleteObject bucket) page /\
    assoc bucket (Sim.buckets (world_of run)) = Some beyond /\
    (forall k, In k beyond ->
       ~ In (DeleteObject bucket k) (api_calls (events_of run))) /\
    (Sim.page_size w < length keys ->
       let whole := delete_s3_bucket bucket c w in
       beyond <> [] /\
       result_of whole =
         Raise (ClientError (mkClientError "DeleteBucket" "BucketNotEmpty" EmptyString)) /\
       api_calls (events_of whole) =
         ListObjectsV2 bucket :: map (DeleteObject bucket) page
         ++ [DeleteBucket bucket] /\
       assoc bucket (Sim.buckets (world_of whole)) = Some beyond).
Proof.
  intros w c bucket keys Hd Hb Hnd page beyond run.
  assert (Hsplit : page ++ beyond = keys) by apply firstn_skipn.
  assert (Hleft : fold_left (fun acc k => Sim.remove_key k acc) page keys
                  = beyond).
  { rewrite <- Hsplit at 1. apply remove_keys_of_page. now rewrite Hsplit. }
  assert (Hcalls : api_calls (events_of run) =
                   ListObjectsV2 bucket :: map (DeleteObject bucket) page /\
                   assoc bucket (Sim.buckets (world_of run)) = Some beyond).
  { destruct keys as [|k keys].
    - assert (Erun : run = (Raise (KeyError (VStr "Contents")), w,
                            [Api (ListObjectsV2 bucket)])).
      { unfold run, delete_s3_objects, bind, invoke, lift. simpl.
        unfold Sim.list_objects_v2.
        now rewrite (unrestricted_guard _ _ _ Hd), Hb. }
      rewrite Erun. unfold page, beyond.
      rewrite firstn_nil, skipn_nil. now split.
    - destruct (sim_delete_s3_objects bucket c w k keys Hd Hb)
        as (_ & He & Hk & _).
      fold page in He, Hk. fold run in He, Hk. rewrite He, Hk, Hleft.
      split; [|reflexivity]. simpl. f_equal.
      rewrite api_calls_app, api_calls_of_deletions. apply app_nil_r. }
  destruct Hcalls as [Hc Hw]. split; [exact Hc|]. split; [exact Hw|]. split.
  - intros k Hk Hin. rewrite Hc in Hin.
    destruct Hin as [Hin | Hin]; [discriminate|].
    apply in_map_iff in Hin. destruct Hin as (k' & Ek & Hin).
    injection Ek as ->.
    apply (NoDup_app_disjoint page beyond k); [now rewrite Hsplit | | ];
      assumption.
  - intros Hmore whole.
    assert (Hbeyond : beyond <> []).
    { intro Hnil. pose proof (length_skipn (Sim.page_size w) keys) as Hlen.
      fold beyond in Hlen. rewrite Hnil in Hlen. simpl in Hlen. lia. }
    split; [exact Hbeyond|].
    destruct keys as [|k keys]; [simpl in Hmore; lia|].
    destruct (sim_delete_s3_objects bucket c w k keys Hd Hb)
      as (Hr & He & Hk & Hd').
    fold page in He, Hk. fold run in Hr, He, Hk, Hd'.
    rewrite Hleft in Hk.
    destruct run as [[r w'] t] eqn:Erun.
    unfold result_of, events_of, world_of in Hr, He, Hk, Hd'.
    simpl in Hr, He, Hk, Hd'. subst r.
    assert (Ewhole : whole =
      (Raise (ClientError (mkClientError "DeleteBucket" "BucketNotEmpty" EmptyString)),
       w', t ++ [Api (DeleteBucket bucket)])).
    { unfold whole, delete_s3_bucket. fold run.
      rewrite (bind_return _ _ _ _ _ _ Erun).
      assert (Edel :
        invoke (DeleteBucket bucket) (s3_delete_bucket c bucket) w' =
        (Raise (ClientError
                  (mkClientError "DeleteBucket" "BucketNotEmpty" EmptyString)),
         w', [Api (DeleteBucket bucket)])).
      { unfold invoke. simpl. unfold Sim.delete_bucket.
        rewrite (unrestricted_guard _ _ _ Hd'), Hk.
        destruct beyond; [now destruct Hbeyond | reflexivity]. }
      now rewrite (bind_raise _ _ _ _ _ _ Edel). }
    rewrite Ewhole. unfold result_of, events_of, world_of. simpl.
    split; [reflexivity|]. split; [|exact Hk].
    rewrite api_calls_app, He. simpl. f_equal.
    rewrite api_calls_app, api_calls_of_deletions. simpl.
    now rewrite app_nil_r.
Qed.

Lemma C8_witness :
  let w := Sim.account_paged in
  let run := delete_s3_objects "my-trail-bucket" (client DefaultSession "s3") w in
  let whole := delete_s3_bucket "my-trail-bucket" (client DefaultSession "s3") w in
  api_calls (events_of run) =
    [ ListObjectsV2 "my-trail-bucket";
      DeleteObject "my-trail-bucket" "k1";
      DeleteObject "my-trail-bucket" "k2" ] /\
  assoc "my-trail-bucket" (Sim.buckets (world_of run)) = Some ["k3"] /\
  result_of whole =
    Raise (ClientError (mkClientError "DeleteBucket" "BucketNotEmpty" EmptyString)).
Proof.
  assert (Hd : Sim.denied Sim.account_paged = []) by reflexivity.
  assert (Hb : assoc "my-trail-bucket" (Sim.buckets Sim.account_paged)
               = Some ["k1"; "k2"; "k3"]) by reflexivity.
  assert (Hnd : NoDup ["k1"; "k2"; "k3"]).
  { repeat constructor; simpl; intuition discriminate. }
  destruct (C8_only_first_page_is_deleted Sim.account_paged
              (client DefaultSession "s3") "my-trail-bucket"
              ["k1"; "k2"; "k3"] Hd Hb Hnd)
    as (Hcalls & Hleft & _ & Hmore).
  assert (Hlt : Sim.page_size Sim.account_paged < length ["k1"; "k2"; "k3"])
    by (simpl; lia).
  destruct (Hmore Hlt) as (_ & Hfail & _).
  cbv zeta. split; [exact Hcalls|]. split; [exact Hleft | exact Hfail].
Defined.

(** C6 fails on the code: the S3 of AWS answers a listing of an empty
    bucket without the ["Contents"] key.  Live deletion of the trail whose
    bucket is empty stops and deletes the trail, lists the bucket, and
    then raises [KeyError('Contents')]: delete-bucket is never called and
    the bucket remains. *)
Theorem C6_empty_bucket_raises_KeyError :
  let run := delete_cloudtrail_resources Sim.live Sim.role Sim.acct
                                         Sim.account_empty in
  s3_list_objects_v2 (client DefaultSession "s3") "my-trail-bucket"
                     Sim.account_empty
    = (Return (mkListObjects None), Sim.account_empty) /\
  result_of run = Raise (KeyError (VStr "Contents")) /\
  mutating_calls (events_of run) =
    [StopLogging (TrailARN Sim.prod); DeleteTrail (TrailARN Sim.prod)] /\
  In (Api (ListObjectsV2 "my-trail-bucket")) (events_of run) /\
  ~ In (Api (DeleteBucket "my-trail-bucket")) (events_of run) /\
  Sim.trails (world_of run) = [] /\
  Sim.buckets (world_of run) = [("my-trail-bucket", [])].
Proof.
  cbv zeta. split; [reflexivity|]. split; [vm_compute; reflexivity|].
  split; [vm_compute; reflexivity|]. split.
  - vm_compute. repeat first [left; reflexivity | right].
  - split; [|split; vm_compute; reflexivity].
    vm_compute. intuition discriminate.
Qed.

(** ** Sample runs *)

(** The listing is refused: the lookup fails with the wrapped error. *)
Example listing_refused :
  get_cloudtrail Sim.dry (client DefaultSession "cloudtrail") "cloudtrail-"
                 (Sim.account1_denying ["DescribeTrails"])
  = (Raise (DeleteDefaultCloudtrailError
              [Lit "Error getting cloudtrail by prefix "; PStr "cloudtrail-"]
              (mkClientError "DescribeTrails" "AccessDenied" EmptyString)),
     Sim.account1_denying ["DescribeTrails"],
     [Api DescribeTrails;
      Log ERROR [Lit "Error getting cloudtrail ";
                 PErr (mkClientError "DescribeTrails" "AccessDenied"
                                     EmptyString)]]).
Proof. vm_compute. reflexivity. Qed.

(** The fetch of the matching trail is refused. *)
Example fetch_refused :
  result_of
    (get_cloudtrail Sim.dry (client DefaultSession "cloudtrail") "cloudtrail-"
                    (Sim.account1_denying ["GetTrail"]))
  = Raise (DeleteDefaultCloudtrailError
             [Lit "Error getting cloudtrail by prefix "; PStr "cloudtrail-"]
             (mkClientError "GetTrail" "AccessDenied" EmptyString)).
Proof. vm_compute. reflexivity. Qed.

(** No trail matches: an error by default, a warning and no deletion when
    ERROR_NOT_FOUND is false. *)
Example none_found_strict :
  result_of (delete_cloudtrail_resources Sim.dry Sim.role Sim.acct
                                         Sim.account0)
  = Raise (NoCloudtrailsFoundError
             [Lit "No cloudtrail found for prefix "; PStr "cloudtrail-"]).
Proof. vm_compute. reflexivity. Qed.

Example none_found_lenient :
  let run := delete_cloudtrail_resources Sim.lenient Sim.role Sim.acct
                                         Sim.account0 in
  result_of run = Return tt /\ mutating_calls (events_of run) = [] /\
  world_of run = Sim.account0.
Proof. vm_compute. repeat split. Qed.

(** The scenario of the specification: one matching trail, a bucket with
    two objects, live mode. *)
Example live_scenario :
  let run := delete_cloudtrail_resources Sim.live Sim.role Sim.acct
                                         Sim.account1 in
  result_of run = Return tt /\
  mutating_calls (events_of run) =
    deletion_script (TrailARN Sim.prod) "my-trail-bucket" ["key1"; "key2"] /\
  Sim.trails (world_of run) = [Sim.audit] /\
  Sim.buckets (world_of run) = [("audit-bucket", ["a"])].
Proof. vm_compute. repeat split. Qed.

(** A deletion that is refused half way leaves the trail deleted and the
    bucket in place. *)
Example delete_object_refused :
  let run := delete_cloudtrail_resources Sim.live Sim.role Sim.acct
               (Sim.account1_denying ["DeleteObject"]) in
  result_of run =
    Raise (ClientError (mkClientError "DeleteObject" "AccessDenied"
                                      EmptyString)) /\
  mutating_calls (events_of run) =
    [ StopLogging (TrailARN Sim.prod); DeleteTrail (TrailARN Sim.prod);
      DeleteObject "my-trail-bucket" "key1" ].
Proof. vm_compute. repeat split. Qed.

(** The "account invited" event of the specification. *)
Example invited_account :
  get_account_id
    (VDict [("detail",
             VDict [("eventName", VStr "InviteAccountToOrganization");
                    ("requestParameters",
                     VDict [("target",
                             VDict [("id", VStr "222222222222")])])])])
  = Return (VStr "222222222222").
Proof. reflexivity. Qed.

Example unknown_event :
  get_account_id
    (VDict [("detail", VDict [("eventName", VStr "RemoveAccount")])])
  = Raise (KeyError (VStr "RemoveAccount")).
Proof. reflexivity. Qed.

Example partitions :
  nth_error (split ":" "arn:aws-us-gov:sts::123456789012:assumed-role/r/s") 1
  = Some "aws-us-gov".
Proof. reflexivity. Qed.

(** * Further properties of the module *)

(** ** Start-up *)

Lemma lower_ascii_not_upper (c u : ascii) :
  (65 <=? nat_of_ascii u)%nat = true -> (nat_of_ascii u <=? 90)%nat = true ->
  lower_ascii c <> u.
Proof.
  intros Hlo Hhi E. subst u. revert Hlo Hhi.
  destruct c as [[] [] [] [] [] [] [] []]; vm_compute; intros; discriminate.
Qed.

Lemma lower_is_no_level_name (s : string) :
  assoc (lower s) LOG_LEVELS = None.
Proof.
  destruct s as [|c s]; [reflexivity|].
  unfold LOG_LEVELS. simpl.
  assert (Hne : forall u, (65 <=? nat_of_ascii u)%nat = true ->
                          (nat_of_ascii u <=? 90)%nat = true ->
                          Ascii.eqb (lower_ascii c) u = false).
  { intros u Hlo Hhi. apply Ascii.eqb_neq. now apply lower_ascii_not_upper. }
  now rewrite !Hne by reflexivity.
Qed.

(** X1: whatever LOG_LEVEL holds, and whether or not it is set, the level
    given to [logging.basicConfig] is INFO: the table is keyed by the
    upper-case names and is looked up with the lower-cased value. *)
Theorem log_level_is_always_info :
  forall environ : Environ,
    basicConfig_level environ = logging_INFO /\
    (forall name level, In (name, level) LOG_LEVELS ->
       lower (getenv environ "LOG_LEVEL" EmptyString) <> name).
Proof.
  intro environ. split.
  - unfold basicConfig_level, defaultdict_getitem.
    now rewrite lower_is_no_level_name.
  - intros name level HIn E.
    pose proof (lower_is_no_level_name
                  (getenv environ "LOG_LEVEL" EmptyString)) as Hno.
    rewrite E in Hno. unfold LOG_LEVELS in HIn. simpl in HIn.
    repeat (destruct HIn as [HIn | HIn];
            [injection HIn as <- <-; discriminate Hno|]).
    exact HIn.
Qed.

Lemma removeHandler_at (kept rest : list Handler) (h : Handler) :
  ~ In h kept ->
  removeHandler h (kept ++ h :: rest) = kept ++ rest.
Proof.
  intro Hk. unfold removeHandler.
  assert (Hin : existsb (Nat.eqb h) (kept ++ h :: rest) = true).
  { apply existsb_exists. exists h. split; [|apply Nat.eqb_refl].
    apply in_or_app. right. now left. }
  rewrite Hin. clear Hin.
  induction kept as [|x kept IH]; simpl.
  - now rewrite Nat.eqb_refl.
  - destruct (Nat.eqb_spec x h) as [-> | Hne].
    + destruct Hk. now left.
    + rewrite IH; [reflexivity|]. intro Hin. apply Hk. now right.
Qed.

Lemma nth_error_at_end {A} (kept rest : list A) :
  nth_error (kept ++ rest) (length kept) = nth_error rest 0.
Proof. rewrite nth_error_app2 by lia. now rewrite Nat.sub_diag. Qed.

Lemma remove_each_handler_past_end (fuel index : nat)
    (handlers : list Handler) :
  length handlers <= index ->
  remove_each_handler fuel index handlers = Some handlers.
Proof.
  intro Hle. apply nth_error_None in Hle.
  destruct fuel; cbn [remove_each_handler]; now rewrite Hle.
Qed.

Lemma remove_each_handler_from (fuel : nat) :
  forall kept rest : list Handler,
    NoDup (kept ++ rest) -> length rest <= fuel ->
    remove_each_handler fuel (length kept) (kept ++ rest)
    = Some (kept ++ odd_positions rest).
Proof.
  induction fuel as [|fuel IH]; intros kept rest Hnd Hfuel.
  - destruct rest; [|simpl in Hfuel; lia].
    simpl. rewrite nth_error_at_end. reflexivity.
  - destruct rest as [|h rest].
    + simpl. rewrite nth_error_at_end. reflexivity.
    + cbn [remove_each_handler]. rewrite nth_error_at_end. simpl nth_error.
      cbv beta iota.
      assert (Hk : ~ In h kept).
      { intro Hin. apply NoDup_remove_2 in Hnd. apply Hnd.
        apply in_or_app. now left. }
      rewrite (removeHandler_at _ _ _ Hk).
      apply NoDup_remove_1 in Hnd.
      destruct rest as [|h2 rest].
      * rewrite app_nil_r. simpl odd_positions. rewrite app_nil_r.
        apply remove_each_handler_past_end. lia.
      * replace (kept ++ h2 :: rest) with ((kept ++ [h2]) ++ rest)
          by (now rewrite <- app_assoc).
        replace (S (length kept)) with (length (kept ++ [h2]))
          by (rewrite length_app; simpl; lia).
        rewrite IH.
        -- simpl odd_positions. now rewrite <- app_assoc.
        -- now rewrite <- app_assoc.
        -- simpl in Hfuel. lia.
Qed.

(** X2: the start-up loop over [root.handlers] removes handlers from the
    list it iterates.  With the handlers pairwise distinct and fuel for one
    round per handler it ends, leaving installed the handlers at the odd
    positions (the second, the fourth, ...): half of them, rounded down.
    It clears the list exactly when at most one handler was installed. *)
Theorem handler_loop_leaves_every_other :
  forall (fuel : nat) (handlers : list Handler),
    NoDup handlers -> length handlers <= fuel ->
    remove_root_handlers fuel handlers = Some (odd_positions handlers) /\
    length (odd_positions handlers) = Nat.div2 (length handlers) /\
    (odd_positions handlers = [] <-> length handlers <= 1).
Proof.
  intros fuel handlers Hnd Hfuel. split; [|split].
  - destruct handlers as [|h rest]; [reflexivity|].
    unfold remove_root_handlers.
    exact (remove_each_handler_from fuel [] (h :: rest) Hnd Hfuel).
  - clear. assert (Hboth : forall xs : list Handler,
      length (odd_positions xs) = Nat.div2 (length xs) /\
      forall x, length (odd_positions (x :: xs)) = Nat.div2 (S (length xs))).
    { induction xs as [|y xs [IH1 IH2]]; [now split|]. split.
      - apply IH2.
      - intro x. simpl. now rewrite IH1. }
    apply Hboth.
  - destruct handlers as [|h [|h2 rest]]; simpl; split;
      try reflexivity; try lia; try discriminate.
Qed.

Lemma handler_loop_leaves_every_other_witness :
  NoDup [1; 2; 3; 4; 5] /\
  remove_root_handlers 5 [1; 2; 3; 4; 5] = Some [2; 4].
Proof.
  assert (Hnd : NoDup [1; 2; 3; 4; 5]).
  { repeat constructor; simpl; intuition discriminate. }
  split; [exact Hnd|].
  assert (Hfuel : length [1; 2; 3; 4; 5] <= 5) by (simpl; lia).
  exact (proj1 (handler_loop_leaves_every_other 5 [1; 2; 3; 4; 5] Hnd Hfuel)).
Defined.

(** ** Trail resolution, beyond the match count *)

Section Resolution.
Context {W : Type} `{Services W}.
Variable environ : Environ.

(** X3: an exception of the listing or of the fetch that is no
    [ClientError] leaves [get_cloudtrail] as it is: not wrapped, and with
    no error line logged. *)
Theorem lookup_passes_other_errors :
  forall (c : Client) (P : string) (w : W) (e : Exn),
    (forall err, e <> ClientError err) ->
    (forall w1,
       cloudtrail_describe_trails c w = (Raise e, w1) ->
       get_cloudtrail environ c P w = (Raise e, w1, [Api DescribeTrails])) /\
    (forall T w1 t w2,
       cloudtrail_describe_trails c w = (Return T, w1) ->
       matching P T = [t] ->
       cloudtrail_get_trail c (Name t) w1 = (Raise e, w2) ->
       get_cloudtrail environ c P w =
       (Raise e, w2, [Api DescribeTrails; Api (GetTrail (Name t))])).
Proof.
  intros c P w e Hother. split.
  - intros w1 E. rewrite (get_cloudtrail_listing_fails environ _ _ _ _ _ E).
    destruct e; try reflexivity. now destruct (Hother e).
  - intros T w1 t w2 E Hone Hget.
    rewrite (get_cloudtrail_single environ _ _ _ _ _ _ E Hone), Hget.
    destruct e; try reflexivity. now destruct (Hother e).
Qed.

Lemma single_match_is_listed (P : string) (T : list TrailInfo) t :
  matching P T = [t] -> In t T /\ startswith (Name t) P = true.
Proof.
  intro Hone. assert (Hin : In t (matching P T)) by (rewrite Hone; now left).
  unfold matching in Hin. now apply filter_In in Hin.
Qed.

(** X4: what [get_cloudtrail] returns is backed by the listing.  A
    descriptor: exactly one listed trail has a name starting with the
    prefix, and the descriptor is the answer of [get_trail] for that name.
    [None]: no listed name starts with the prefix and ERROR_NOT_FOUND is
    false. *)
Theorem returned_trail_is_the_only_match :
  forall (c : Client) (P : string) (w w' : W) r evs,
    get_cloudtrail environ c P w = (Return r, w', evs) ->
    match r with
    | Some descriptor =>
        exists T w1 t,
          cloudtrail_describe_trails c w = (Return T, w1) /\
          matching P T = [t] /\ In t T /\ startswith (Name t) P = true /\
          cloudtrail_get_trail c (Name t) w1 = (Return descriptor, w') /\
          evs = [Api DescribeTrails; Api (GetTrail (Name t))]
    | None =>
        exists T,
          cloudtrail_describe_trails c w = (Return T, w') /\
          matching P T = [] /\ ERROR_NOT_FOUND environ = false /\
          evs = [Api DescribeTrails; Log WARNING (none_found_error P)]
    end.
Proof.
  intros c P w w' r evs Hrun.
  destruct (cloudtrail_describe_trails c w) as [[T|e] w1] eqn:E.
  - destruct (matching P T) as [|t [|t' rest]] eqn:Em.
    + rewrite (get_cloudtrail_none environ _ _ _ _ _ E Em) in Hrun.
      destruct (ERROR_NOT_FOUND environ) eqn:Ef; [discriminate|].
      injection Hrun as <- <- <-. now exists T.
    + rewrite (get_cloudtrail_single environ _ _ _ _ _ _ E Em) in Hrun.
      destruct (cloudtrail_get_trail c (Name t) w1) as [[d|e] w2] eqn:Eg.
      * injection Hrun as <- <- <-. exists T, w1, t.
        destruct (single_match_is_listed _ _ _ Em). now repeat split.
      * destruct e; discriminate.
    + rewrite (get_cloudtrail_multiple environ _ _ _ _ _ E) in Hrun
        by (rewrite Em; simpl; lia).
      discriminate.
  - rewrite (get_cloudtrail_listing_fails environ _ _ _ _ _ E) in Hrun.
    destruct e; discriminate.
Qed.

(** X5: the calls of a lookup.  [get_cloudtrail] lists once; it fetches,
    once and by the matching name, exactly when the listing succeeded with
    a single match; it makes no other call. *)
Theorem lookup_calls :
  forall (c : Client) (P : string) (w : W),
    api_calls (events_of (get_cloudtrail environ c P w)) =
    match cloudtrail_describe_trails c w with
    | (Return T, _) =>
        match matching P T with
        | [t] => [DescribeTrails; GetTrail (Name t)]
        | _ => [DescribeTrails]
        end
    | (Raise _, _) => [DescribeTrails]
    end.
Proof.
  intros c P w.
  destruct (cloudtrail_describe_trails c w) as [[T|e] w1] eqn:E.
  - destruct (matching P T) as [|t [|t' rest]] eqn:Em.
    + rewrite (get_cloudtrail_none environ _ _ _ _ _ E Em).
      now destruct (ERROR_NOT_FOUND environ).
    + rewrite (get_cloudtrail_single environ _ _ _ _ _ _ E Em).
      destruct (cloudtrail_get_trail c (Name t) w1) as [[d|e] w2];
        [reflexivity|]. now destruct e.
    + now rewrite (get_cloudtrail_multiple environ _ _ _ _ _ E)
        by (rewrite Em; simpl; lia).
  - rewrite (get_cloudtrail_listing_fails environ _ _ _ _ _ E).
    now destruct e.
Qed.

Lemma startswith_iff (s pre : string) :
  startswith s pre = true <-> exists suffix, s = (pre ++ suffix)%string.
Proof.
  unfold startswith. revert s. induction pre as [|c pre IH]; intro s.
  - split; [intros _; now exists s|]. intros _. now destruct s.
  - destruct s as [|c' s]; simpl.
    + split; [discriminate|]. intros [suffix E]. discriminate.
    + destruct (Ascii.ascii_dec c c') as [<- | Hne].
      * rewrite IH. split; intros [suffix E]; exists suffix.
        -- now rewrite E.
        -- now injection E.
      * split; [discriminate|]. intros [suffix E]. injection E as E _.
        now destruct Hne.
Qed.

(** X6: the names that are matched.  A name is among the matches exactly
    when a listed trail bears it and it is the prefix followed by some
    text (possibly none); the matches keep the order of the listing; with
    an empty prefix every listed trail matches. *)
Theorem matched_names_are_prefixed :
  forall (P : string) (T : list TrailInfo),
    (forall name,
       In name (matching_names P T) <->
       exists t suffix,
         In t T /\ Name t = name /\ name = (P ++ suffix)%string) /\
    matching_names P T = map Name (matching P T) /\
    matching_names EmptyString T = map Name T.
Proof.
  intros P T. split; [|split].
  - intro name. rewrite (matching_names_filter P T), in_map_iff. split.
    + intros (t & <- & Hin). unfold matching in Hin.
      apply filter_In in Hin as [Hin Hpre].
      apply startswith_iff in Hpre as [suffix E]. now exists t, suffix.
    + intros (t & suffix & Hin & <- & E). exists t. split; [reflexivity|].
      unfold matching. apply filter_In. split; [assumption|].
      apply startswith_iff. now exists suffix.
  - apply matching_names_filter.
  - rewrite (matching_names_filter EmptyString T). f_equal.
    unfold matching. induction T as [|t T IH]; [reflexivity|].
    simpl. assert (Hs : startswith (Name t) EmptyString = true)
      by (apply startswith_iff; now exists (Name t)).
    now rewrite Hs, IH.
Qed.

End Resolution.

Lemma lookup_passes_other_errors_witness :
  get_cloudtrail Sim.dry (client DefaultSession "cloudtrail") "cloudtrail-" tt
  = (Raise (BotoCoreError "EndpointConnectionError"), tt,
     [Api DescribeTrails]).
Proof.
  assert (Hother : forall err,
            BotoCoreError "EndpointConnectionError" <> ClientError err)
    by discriminate.
  destruct (lookup_passes_other_errors Sim.dry
              (client DefaultSession "cloudtrail") "cloudtrail-" tt _ Hother)
    as [Hlist _].
  apply Hlist. reflexivity.
Defined.

Lemma returned_trail_is_the_only_match_witness :
  exists T w1 t,
    cloudtrail_describe_trails (client DefaultSession "cloudtrail")
                               Sim.account1 = (Return T, w1) /\
    matching "cloudtrail-" T = [t] /\ In t T /\
    startswith (Name t) "cloudtrail-" = true /\
    cloudtrail_get_trail (client DefaultSession "cloudtrail") (Name t) w1
      = (Return (mkGetTrail Sim.prod), Sim.account1) /\
    [Api DescribeTrails; Api (GetTrail "cloudtrail-prod")]
      = [Api DescribeTrails; Api (GetTrail (Name t))].
Proof.
  evaluated Hrun (get_cloudtrail Sim.dry (client DefaultSession "cloudtrail")
                                 "cloudtrail-" Sim.account1).
  exact (returned_trail_is_the_only_match Sim.dry _ _ _ _ _ _ Hrun).
Defined.

(** ** Runs that stop early *)

Section EarlyStops.
Context {W : Type} `{Services W}.
Variable environ : Environ.

(** X7: no name of the listing starts with the prefix.  With
    ERROR_NOT_FOUND true the run raises [NoCloudtrailsFoundError]; with it
    false the run logs two warnings and returns.  Either way, and whatever
    DRY_RUN is, no trail is fetched and no mutating call is made. *)
Theorem no_match_deletes_nothing :
  forall role acct (w : W) clients w1 e1 T w2,
    get_boto3_clients environ role acct w = (Return clients, w1, e1) ->
    cloudtrail_describe_trails (fst clients) w1 = (Return T, w2) ->
    matching (CLOUDTRAIL_NAME_PREFIX environ) T = [] ->
    let P := CLOUDTRAIL_NAME_PREFIX environ in
    let run := delete_cloudtrail_resources environ role acct w in
    run =
      (if ERROR_NOT_FOUND environ
       then (Raise (NoCloudtrailsFoundError (none_found_error P)), w2,
             e1 ++ [Api DescribeTrails; Log ERROR (none_found_error P)])
       else (Return tt, w2,
             e1 ++ [Api DescribeTrails; Log WARNING (none_found_error P)] ++
             [Log WARNING [Lit "Cloudtrail "; PStr P; Lit " not found."]])) /\
    resource_calls (events_of run) = [DescribeTrails] /\
    mutating_calls (events_of run) = [].
Proof.
  intros role acct w clients w1 e1 T w2 E1 Elist Hnone P run.
  pose proof (get_cloudtrail_none environ _ _ _ _ _ Elist Hnone) as Hlookup.
  fold P in Hlookup.
  destruct (get_boto3_clients_return environ _ _ _ _ _ _ E1)
    as (s & identity & _ & He1).
  assert (Hrun : run =
    (if ERROR_NOT_FOUND environ
     then (Raise (NoCloudtrailsFoundError (none_found_error P)), w2,
           e1 ++ [Api DescribeTrails; Log ERROR (none_found_error P)])
     else (Return tt, w2,
           e1 ++ [Api DescribeTrails; Log WARNING (none_found_error P)] ++
           [Log WARNING [Lit "Cloudtrail "; PStr P; Lit " not found."]]))).
  { unfold run. destruct (ERROR_NOT_FOUND environ).
    - exact (resources_lookup_raises environ _ _ _ _ _ _ _ _ _ E1 Hlookup).
    - unfold delete_cloudtrail_resources.
      now rewrite (bind_return _ _ _ _ _ _ E1),
                  (bind_return _ _ _ _ _ _ Hlookup). }
  split; [exact Hrun|]. rewrite Hrun. subst e1.
  destruct (ERROR_NOT_FOUND environ); now split.
Qed.

(** X8: when the session cannot be set up the run stops there with that
    exception, and no CloudTrail or S3 call is made.  That is so when
    [assume_role] raises, and also when the identity call on the assumed
    session raises, although that call only feeds a debug line. *)
Theorem failed_session_stops_the_run :
  forall role acct (w : W) e w1 e1,
    get_boto3_clients environ role acct w = (Raise e, w1, e1) ->
    delete_cloudtrail_resources environ role acct w = (Raise e, w1, e1) /\
    resource_calls e1 = [] /\
    ((lib_assume_role SESSION role (role_session_name_of environ) w
        = (Raise e, w1) /\
      e1 = [Api (AssumeRole role (role_session_name_of environ))]) \/
     (exists s w',
        lib_assume_role SESSION role (role_session_name_of environ) w
          = (Return s, w') /\
        sts_get_caller_identity s w' = (Raise e, w1) /\
        e1 = [Api (AssumeRole role (role_session_name_of environ));
              Api (GetCallerIdentity s)])).
Proof.
  intros role acct w e w1 e1 E1.
  split.
  { unfold delete_cloudtrail_resources.
    now rewrite (bind_raise _ _ _ _ _ _ E1). }
  revert E1.
  unfold get_boto3_clients, get_assumed_role_session, bind, invoke, log, ret.
  fold (role_session_name_of environ).
  destruct (lib_assume_role SESSION role (role_session_name_of environ) w)
    as [[s|e'] w'] eqn:Erole.
  - destruct (sts_get_caller_identity s w') as [[identity|e''] w''] eqn:Eid;
      [discriminate|].
    intro E. injection E as E1 E2 E3. subst e'' w'' e1.
    split; [reflexivity|]. right. exists s, w'. repeat split; assumption.
  - intro E. injection E as E1 E2 E3. subst e' w' e1.
    split; [reflexivity|]. left. now split.
Qed.

(** X9: live mode, trail resolved: a failing step ends the run with the
    exception of that step, unwrapped, and the steps after it are not
    attempted.  Nothing is undone: when the listing of the bucket raises,
    the trail has already been stopped and deleted. *)
Theorem live_deletion_stops_at_first_failure :
  forall role acct (w : W) clients w1 e1 cloudtrail w2 e2,
    DRY_RUN environ = false ->
    get_boto3_clients environ role acct w = (Return clients, w1, e1) ->
    get_cloudtrail environ (fst clients) (CLOUDTRAIL_NAME_PREFIX environ) w1
      = (Return (Some cloudtrail), w2, e2) ->
    let arn := TrailARN (Trail cloudtrail) in
    let bucket := S3BucketName (Trail cloudtrail) in
    let run := delete_cloudtrail_resources environ role acct w in
    (forall e w3,
       cloudtrail_stop_logging (fst clients) arn w2 = (Raise e, w3) ->
       run = (Raise e, w3, e1 ++ e2 ++ [Api (StopLogging arn)])) /\
    (forall e w3 w4,
       cloudtrail_stop_logging (fst clients) arn w2 = (Return tt, w3) ->
       cloudtrail_delete_trail (fst clients) arn w3 = (Raise e, w4) ->
       run = (Raise e, w4,
              e1 ++ e2 ++ [Api (StopLogging arn); Api (DeleteTrail arn)])) /\
    (forall e w3 w4 w5,
       cloudtrail_stop_logging (fst clients) arn w2 = (Return tt, w3) ->
       cloudtrail_delete_trail (fst clients) arn w3 = (Return tt, w4) ->
       s3_list_objects_v2 (snd clients) bucket w4 = (Raise e, w5) ->
       result_of run = Raise e /\ world_of run = w5 /\
       api_calls (events_of run) =
         api_calls (e1 ++ e2) ++
         [StopLogging arn; DeleteTrail arn; ListObjectsV2 bucket]).
Proof.
  intros role acct w clients w1 e1 cloudtrail w2 e2 Hlive E1 E2 arn bucket run.
  assert (Hrun : run =
    let o := bind (delete_cloudtrail arn (fst clients))
                  (fun _ => delete_s3_bucket bucket (snd clients)) w2 in
    (result_of o, world_of o, e1 ++ e2 ++ events_of o)).
  { unfold run.
    now rewrite (resources_resolved environ _ _ _ _ _ _ _ _ _ E1 E2), Hlive. }
  rewrite Hrun. cbv zeta.
  unfold delete_cloudtrail, delete_s3_bucket, delete_s3_objects.
  split; [|split].
  - intros e w3 Hstop. unfold bind, invoke. now rewrite Hstop.
  - intros e w3 w4 Hstop Hdel. unfold bind, invoke, log.
    now rewrite Hstop, Hdel.
  - intros e w3 w4 w5 Hstop Hdel Hlist. unfold bind, invoke, log, lift.
    rewrite Hstop, Hdel, Hlist. unfold result_of, world_of, events_of.
    simpl. split; [reflexivity|]. split; [reflexivity|].
    rewrite app_assoc, api_calls_app. reflexivity.
Qed.

Lemma loop_stops_at_a_raise {A} (body : A -> M W unit)
    (done : list A) (x : A) (rest : list A) (w w1 w2 : W) t1 t2 e :
  for_each done body w = (Return tt, w1, t1) ->
  body x w1 = (Raise e, w2, t2) ->
  for_each (done ++ x :: rest) body w = (Raise e, w2, t1 ++ t2).
Proof.
  revert w t1. induction done as [|y done IH]; intros w t1 Hdone Hx; simpl.
  - injection Hdone as <- <-. now rewrite (bind_raise _ _ _ _ _ _ Hx).
  - simpl in Hdone.
    destruct (body y w) as [[[[]|e0] w0] t0] eqn:Ey.
    + rewrite (bind_return _ _ _ _ _ _ Ey) in Hdone.
      destruct (for_each done body w0) as [[r' w'] t'] eqn:Ed.
      unfold result_of, world_of, events_of in Hdone. simpl in Hdone.
      injection Hdone as -> -> <-.
      rewrite (bind_return _ _ _ _ _ _ Ey), (IH _ _ Ed Hx).
      unfold result_of, world_of, events_of. simpl. now rewrite app_assoc.
    + rewrite (bind_raise _ _ _ _ _ _ Ey) in Hdone. discriminate.
Qed.

Lemma object_loop_only_deletes bucket (c : Client) (objs : list S3Object) :
  forall w : W,
    mutating_calls
      (events_of (for_each objs
                    (fun o => invoke (DeleteObject bucket (Key o))
                                     (s3_delete_object c bucket (Key o))) w))
    = api_calls
        (events_of (for_each objs
                      (fun o => invoke (DeleteObject bucket (Key o))
                                       (s3_delete_object c bucket (Key o))) w)).
Proof.
  set (body := fun o => invoke (DeleteObject bucket (Key o))
                               (s3_delete_object c bucket (Key o))).
  induction objs as [|obj objs IH]; intro w; [reflexivity|].
  simpl for_each.
  destruct (body obj w) as [[[[]|e] w1] t1] eqn:E.
  - assert (Ht1 : t1 = [Api (DeleteObject bucket (Key obj))]).
    { unfold body, invoke in E.
      destruct (s3_delete_object c bucket (Key obj) w).
      now injection E as _ _ <-. }
    rewrite (bind_return _ _ _ _ _ _ E). subst t1.
    unfold events_of at 1 3. simpl snd.
    unfold mutating_calls in *. simpl. now rewrite IH.
  - rewrite (bind_raise _ _ _ _ _ _ E).
    unfold body, invoke in E.
    destruct (s3_delete_object c bucket (Key obj) w).
    now injection E as _ _ <-.
Qed.

(** X10: the object loop stops at the first [delete_object] that raises:
    the objects listed after it are not touched, the exception leaves
    [delete_s3_bucket] unchanged, and the bucket itself is not deleted. *)
Theorem object_loop_stops_at_first_failure :
  forall bucket (c : Client) (w w0 w1 w2 : W)
         (done : list S3Object) (obj : S3Object) (rest : list S3Object)
         t1 e,
    s3_list_objects_v2 c bucket w
      = (Return (mkListObjects (Some (done ++ obj :: rest))), w0) ->
    for_each done
      (fun o => invoke (DeleteObject bucket (Key o))
                       (s3_delete_object c bucket (Key o))) w0
      = (Return tt, w1, t1) ->
    s3_delete_object c bucket (Key obj) w1 = (Raise e, w2) ->
    delete_s3_bucket bucket c w =
    (Raise e, w2,
     Api (ListObjectsV2 bucket) :: t1 ++ [Api (DeleteObject bucket (Key obj))])
    /\
    api_calls t1 = map (DeleteObject bucket) (map Key done).
Proof.
  intros bucket c w w0 w1 w2 done obj rest t1 e Hlist Hdone Hfail.
  assert (Hloop :
    for_each (done ++ obj :: rest)
      (fun o => invoke (DeleteObject bucket (Key o))
                       (s3_delete_object c bucket (Key o))) w0
    = (Raise e, w2, t1 ++ [Api (DeleteObject bucket (Key obj))])).
  { apply (loop_stops_at_a_raise _ _ _ _ _ _ _ _ _ _ Hdone).
    unfold invoke. now rewrite Hfail. }
  split.
  - unfold delete_s3_bucket, delete_s3_objects.
    assert (Hobjs :
      (response <- invoke (ListObjectsV2 bucket) (s3_list_objects_v2 c bucket) ;;
       objects <- lift (match Contents response with
                        | Some objs => Return objs
                        | None => Raise (KeyError (VStr "Contents"))
                        end) ;;
       for_each objects
         (fun o => invoke (DeleteObject bucket (Key o))
                          (s3_delete_object c bucket (Key o))) ;;
       log DEBUG [ Lit "All objects from s3 bucket "; PStr bucket;
                   Lit " have been deleted." ])%prog w
      = (Raise e, w2,
         Api (ListObjectsV2 bucket) :: t1 ++
         [Api (DeleteObject bucket (Key obj))])).
    { unfold bind at 1. unfold invoke at 1. rewrite Hlist.
      unfold bind at 1. unfold lift. simpl Contents. cbv beta iota.
      now rewrite (bind_raise _ _ _ _ _ _ Hloop). }
    now rewrite (bind_raise _ _ _ _ _ _ Hobjs).
  - pose proof (for_each_delete_script bucket c done w0) as [_ Hall].
    rewrite Hdone in Hall. specialize (Hall tt eq_refl).
    unfold events_of in Hall. simpl in Hall. rewrite <- Hall.
    pose proof (object_loop_only_deletes bucket c done w0) as Honly.
    rewrite Hdone in Honly. now symmetry.
Qed.

Lemma object_loop_calls bucket (c : Client) (objs : list S3Object) (w : W) :
  forall call,
    In call (api_calls
               (events_of
                  (for_each objs
                     (fun o => invoke (DeleteObject bucket (Key o))
                                      (s3_delete_object c bucket (Key o))) w)))
    -> exists k, call = DeleteObject bucket k.
Proof.
  intros call Hin. rewrite <- object_loop_only_deletes in Hin.
  destruct (for_each_delete_script bucket c objs w) as [[rest Hpre] _].
  assert (Hall : In call (map (DeleteObject bucket) (map Key objs)))
    by (rewrite Hpre; apply in_or_app; now left).
  apply in_map_iff in Hall. destruct Hall as (k & <- & _). now exists k.
Qed.

Lemma objects_step_calls bucket (c : Client) (w : W) :
  forall call,
    In call (api_calls (events_of (delete_s3_objects bucket c w))) ->
    call = ListObjectsV2 bucket \/ exists k, call = DeleteObject bucket k.
Proof.
  intros call. unfold delete_s3_objects.
  unfold bind at 1. unfold invoke at 1.
  destruct (s3_list_objects_v2 c bucket w) as [[response|e] w1];
    [|simpl; intuition].
  unfold bind at 1. unfold lift.
  destruct (Contents response) as [objs|]; [|simpl; intuition].
  set (loop := for_each objs _).
  pose proof (object_loop_calls bucket c objs w1) as Hloop. fold loop in Hloop.
  unfold bind, log. destruct (loop w1) as [[[[]|e] w2] t2];
    unfold events_of in *; simpl in *; rewrite ?app_nil_r.
  - rewrite api_calls_app. simpl. rewrite app_nil_r.
    intros [Hl | Hin]; [now left | right; now apply Hloop].
  - intros [Hl | Hin]; [now left | right; now apply Hloop].
Qed.

(** X11: [delete_s3_bucket] asks for the deletion of the bucket exactly
    when the object step before it returned: never after a failed listing,
    a listing without ["Contents"], or a failed [delete_object]. *)
Theorem bucket_deleted_only_after_objects :
  forall bucket (c : Client) (w : W),
    In (DeleteBucket bucket)
       (api_calls (events_of (delete_s3_bucket bucket c w)))
    <-> result_of (delete_s3_objects bucket c w) = Return tt.
Proof.
  intros bucket c w. unfold delete_s3_bucket.
  pose proof (objects_step_calls bucket c w) as Hcalls.
  destruct (delete_s3_objects bucket c w) as [[[[]|e] w1] t1] eqn:E.
  - rewrite (bind_return _ _ _ _ _ _ E). split; [reflexivity|]. intros _.
    unfold events_of at 1. simpl snd. rewrite api_calls_app.
    apply in_or_app. right. unfold bind, invoke, log.
    destruct (s3_delete_bucket c bucket w1) as [[[]|e] w2]; now left.
  - rewrite (bind_raise _ _ _ _ _ _ E). split; [|discriminate].
    intro Hin. destruct (Hcalls _ Hin) as [Hl | [k Hk]]; discriminate.
Qed.

End EarlyStops.

Lemma no_match_deletes_nothing_witness :
  result_of (delete_cloudtrail_resources Sim.lenient Sim.role Sim.acct
                                         Sim.account0) = Return tt /\
  mutating_calls
    (events_of (delete_cloudtrail_resources Sim.lenient Sim.role Sim.acct
                                            Sim.account0)) = [].
Proof.
  evaluated E1 (get_boto3_clients Sim.lenient Sim.role Sim.acct Sim.account0).
  assert (Elist : cloudtrail_describe_trails
                    (client (AssumedSession Sim.role
                                            "delete_default_cloudtrail.py")
                            "cloudtrail") Sim.account0
                  = (Return (Sim.trails Sim.account0), Sim.account0))
    by reflexivity.
  assert (Hnone : matching (CLOUDTRAIL_NAME_PREFIX Sim.lenient)
                           (Sim.trails Sim.account0) = [])
    by reflexivity.
  destruct (no_match_deletes_nothing Sim.lenient Sim.role Sim.acct
              Sim.account0 _ _ _ _ _ E1 Elist Hnone)
    as (Hrun & _ & Hquiet).
  split; [now rewrite Hrun | exact Hquiet].
Defined.

Lemma failed_session_stops_the_run_witness :
  delete_cloudtrail_resources Sim.live None Sim.acct Sim.account1
  = (Raise (BotoCoreError "ParamValidationError"), Sim.account1,
     [Api (AssumeRole None "delete_default_cloudtrail.py");
      Api (GetCallerIdentity
             (AssumedSession None "delete_default_cloudtrail.py"))]).
Proof.
  evaluated E1 (get_boto3_clients Sim.live None Sim.acct Sim.account1).
  exact (proj1 (failed_session_stops_the_run Sim.live None Sim.acct
                  Sim.account1 _ _ _ E1)).
Defined.

Lemma live_deletion_stops_at_first_failure_witness :
  result_of (delete_cloudtrail_resources Sim.live Sim.role Sim.acct
               (Sim.account1_denying ["DeleteTrail"]))
  = Raise (ClientError (mkClientError "DeleteTrail" "AccessDenied"
                                      EmptyString)).
Proof.
  assert (Hlive : DRY_RUN Sim.live = false) by reflexivity.
  evaluated E1 (get_boto3_clients Sim.live Sim.role Sim.acct
                  (Sim.account1_denying ["DeleteTrail"])).
  evaluated E2 (get_cloudtrail Sim.live
                  (client (AssumedSession Sim.role "delete_default_cloudtrail.py")
                          "cloudtrail")
                  (CLOUDTRAIL_NAME_PREFIX Sim.live)
                  (Sim.account1_denying ["DeleteTrail"])).
  destruct (live_deletion_stops_at_first_failure Sim.live Sim.role Sim.acct
              (Sim.account1_denying ["DeleteTrail"]) _ _ _ _ _ _
              Hlive E1 E2) as (_ & Hdelete & _).
  evaluated Hstop
    (cloudtrail_stop_logging
       (client (AssumedSession Sim.role "delete_default_cloudtrail.py")
               "cloudtrail")
       (TrailARN Sim.prod) (Sim.account1_denying ["DeleteTrail"])).
  evaluated Hdel
    (cloudtrail_delete_trail
       (client (AssumedSession Sim.role "delete_default_cloudtrail.py")
               "cloudtrail")
       (TrailARN Sim.prod) (Sim.account1_denying ["DeleteTrail"])).
  now rewrite (Hdelete _ _ _ Hstop Hdel).
Defined.

Lemma object_loop_stops_at_first_failure_witness :
  delete_s3_bucket "my-trail-bucket" (client DefaultSession "s3")
                   (Sim.account1_denying ["DeleteObject"])
  = (Raise (ClientError (mkClientError "DeleteObject" "AccessDenied"
                                       EmptyString)),
     Sim.account1_denying ["DeleteObject"],
     [Api (ListObjectsV2 "my-trail-bucket");
      Api (DeleteObject "my-trail-bucket" "key1")]).
Proof.
  assert (Hlist :
    s3_list_objects_v2 (client DefaultSession "s3") "my-trail-bucket"
                       (Sim.account1_denying ["DeleteObject"])
    = (Return (mkListObjects
                 (Some ([] ++ mkObject "key1" :: [mkObject "key2"]))),
       Sim.account1_denying ["DeleteObject"])) by reflexivity.
  assert (Hdone :
    for_each []
      (fun o => invoke (DeleteObject "my-trail-bucket" (Key o))
                  (s3_delete_object (client DefaultSession "s3")
                                    "my-trail-bucket" (Key o)))
      (Sim.account1_denying ["DeleteObject"])
    = (Return tt, Sim.account1_denying ["DeleteObject"], [])) by reflexivity.
  assert (Hfail :
    s3_delete_object (client DefaultSession "s3") "my-trail-bucket"
                     (Key (mkObject "key1"))
                     (Sim.account1_denying ["DeleteObject"])
    = (Raise (ClientError (mkClientError "DeleteObject" "AccessDenied"
                                         EmptyString)),
       Sim.account1_denying ["DeleteObject"])) by reflexivity.
  exact (proj1 (object_loop_stops_at_first_failure _ _ _ _ _ _ _ _ _ _ _
                  Hlist Hdone Hfail)).
Defined.

(** ** Partitions and role ARNs *)

Lemma split_never_nil (sep : ascii) (s : string) : split sep s <> [].
Proof.
  destruct s as [|c s]; simpl; [discriminate|].
  destruct (Ascii.eqb c sep); [discriminate|].
  destruct (split sep s); discriminate.
Qed.

Lemma split_without_sep (sep : ascii) (s : string) :
  contains sep s = false -> split sep s = [s].
Proof.
  induction s as [|c s IH]; simpl; [reflexivity|].
  destruct (Ascii.eqb c sep); simpl; [discriminate|].
  intro Hs. now rewrite (IH Hs).
Qed.

Lemma split_at_first_sep (sep : ascii) (a s : string) :
  contains sep a = false ->
  split sep (a ++ String sep s)%string = a :: split sep s.
Proof.
  induction a as [|c a IH]; simpl.
  - intros _. now rewrite Ascii.eqb_refl.
  - destruct (Ascii.eqb c sep); simpl; [discriminate|].
    intro Ha. now rewrite (IH Ha).
Qed.

Lemma first_sep (sep : ascii) (s : string) :
  contains sep s = true ->
  exists a rest,
    s = (a ++ String sep rest)%string /\ contains sep a = false.
Proof.
  induction s as [|c s IH]; simpl; [discriminate|].
  destruct (Ascii.eqb_spec c sep) as [-> | Hne]; simpl.
  - intros _. now exists EmptyString, s.
  - intro Hs. destruct (IH Hs) as (a & rest & -> & Ha).
    exists (String c a), rest. split; [reflexivity|]. simpl.
    apply Ascii.eqb_neq in Hne. now rewrite Hne.
Qed.

Lemma split_head_clean (sep : ascii) (s : string) :
  forall x xs, split sep s = x :: xs -> contains sep x = false.
Proof.
  induction s as [|c s IH]; simpl; intros x xs E.
  - now injection E as <- _.
  - destruct (Ascii.eqb c sep) eqn:Ec.
    + now injection E as <- _.
    + destruct (split sep s) as [|y ys] eqn:Es.
      * injection E as <- _. simpl. now rewrite Ec.
      * injection E as <- _. simpl. rewrite Ec. simpl. now apply (IH y ys).
Qed.

Lemma second_field (sep : ascii) (s : string) :
  (contains sep s = false -> nth_error (split sep s) 1 = None) /\
  (contains sep s = true ->
     exists p, nth_error (split sep s) 1 = Some p /\ contains sep p = false).
Proof.
  split.
  - intro Hs. now rewrite (split_without_sep _ _ Hs).
  - intro Hs. destruct (first_sep _ _ Hs) as (a & rest & -> & Ha).
    rewrite (split_at_first_sep _ _ _ Ha). simpl.
    destruct (split sep rest) as [|p ps] eqn:Er.
    + now destruct (split_never_nil sep rest).
    + exists p. split; [reflexivity|]. exact (split_head_clean _ _ _ _ Er).
Qed.

Lemma second_field_of (sep : ascii) (a p rest : string) :
  contains sep a = false -> contains sep p = false ->
  nth_error (split sep (a ++ String sep p)%string) 1 = Some p /\
  nth_error (split sep (a ++ String sep (p ++ String sep rest))%string) 1
    = Some p.
Proof.
  intros Ha Hp. rewrite !(split_at_first_sep _ _ _ Ha).
  rewrite (split_at_first_sep _ _ _ Hp), (split_without_sep _ _ Hp).
  now split.
Qed.

Section Partition.
Context {W : Type} `{Services W}.

(** X12: [get_partition] makes one identity call on the default session.
    It returns the text between the first and the second ":" of the ARN
    (or after the first, when there is one ":" only), which holds no ":";
    it raises [IndexError] exactly when the ARN holds no ":"; an
    exception of the call leaves it unchanged. *)
Theorem partition_is_the_second_field :
  forall (w w1 : W) (answer : Result string),
    sts_get_caller_identity DefaultSession w = (answer, w1) ->
    events_of (get_partition w) = [Api (GetCallerIdentity DefaultSession)] /\
    world_of (get_partition w) = w1 /\
    match answer with
    | Raise e => result_of (get_partition w) = Raise e
    | Return arn =>
        (contains ":" arn = false <->
           result_of (get_partition w) = Raise IndexError) /\
        (contains ":" arn = true ->
           exists p, result_of (get_partition w) = Return p /\
                     contains ":" p = false) /\
        (forall a p rest,
           contains ":" a = false -> contains ":" p = false ->
           arn = (a ++ ":" ++ p)%string \/
           arn = (a ++ ":" ++ p ++ ":" ++ rest)%string ->
           result_of (get_partition w) = Return p)
    end.
Proof.
  intros w w1 answer Hid.
  unfold get_partition, bind, invoke, lift, list_getitem. rewrite Hid.
  destruct answer as [arn|e]; [|now repeat split].
  destruct (second_field ":" arn) as [Hnone Hsome].
  destruct (nth_error (split ":" arn) 1) as [p0|] eqn:En;
    unfold result_of, world_of, events_of; simpl.
  - split; [reflexivity|]. split; [reflexivity|].
    destruct (contains ":" arn) eqn:Hc.
    + split; [split; discriminate|]. split.
      * intros _. destruct (Hsome eq_refl) as (p & Ep & Hp).
        injection Ep as <-. now exists p0.
      * intros a p rest Ha Hp [-> | ->].
        -- destruct (second_field_of ":" a p rest Ha Hp) as [E _].
           simpl in *. rewrite E in En. now injection En as <-.
        -- destruct (second_field_of ":" a p rest Ha Hp) as [_ E].
           simpl in *. rewrite E in En. now injection En as <-.
    + discriminate (Hnone eq_refl).
  - split; [reflexivity|]. split; [reflexivity|].
    destruct (contains ":" arn) eqn:Hc.
    + destruct (Hsome eq_refl) as (p & Ep & _). discriminate.
    + split; [now split|]. split; [discriminate|].
      intros a p rest Ha Hp [-> | ->].
      * destruct (second_field_of ":" a p rest Ha Hp) as [E _].
        simpl in *. rewrite E in En. discriminate.
      * destruct (second_field_of ":" a p rest Ha Hp) as [_ E].
        simpl in *. rewrite E in En. discriminate.
Qed.

End Partition.

(** X13: a role ARN built from a partition, an account id and a role name
    that hold no ":" splits back into them: its fields are "arn", the
    partition, "iam", an empty field, the account id, and "role/" followed
    by the role name.  For a partition read off a caller ARN, the built
    ARN lies in that partition whatever the account id and the name are. *)
Theorem role_arn_splits_back :
  forall partition account role_name : string,
    contains ":" partition = false ->
    (contains ":" account = false -> contains ":" role_name = false ->
     split ":" (role_arn_of partition account role_name) =
     [ "arn"; partition; "iam"; EmptyString; account;
       ("role/" ++ role_name)%string ]) /\
    nth_error (split ":" (role_arn_of partition account role_name)) 1
      = Some partition.
Proof.
  intros partition account role_name Hp.
  assert (Hhead : forall tail : string,
    split ":" ("arn:" ++ partition ++ ":" ++ tail)%string
    = "arn" :: partition :: split ":" tail).
  { intro tail.
    change ("arn:" ++ partition ++ ":" ++ tail)%string
      with ("arn" ++ String ":" (partition ++ String ":" tail))%string.
    rewrite split_at_first_sep by reflexivity.
    now rewrite split_at_first_sep by assumption. }
  unfold role_arn_of.
  change (":iam::" ++ account ++ ":role/" ++ role_name)%string
    with (":" ++ ("iam::" ++ account ++ ":role/" ++ role_name))%string.
  rewrite Hhead. split; [|reflexivity].
  intros Ha Hr.
  change ("iam::" ++ account ++ ":role/" ++ role_name)%string
    with ("iam" ++ String ":"
            (EmptyString ++ String ":"
               (account ++ String ":" ("role/" ++ role_name))))%string.
  rewrite !split_at_first_sep by (assumption || reflexivity).
  rewrite split_without_sep; [reflexivity|].
  simpl. exact Hr.
Qed.

Lemma role_arn_splits_back_witness :
  split ":" (role_arn_of "aws-cn" "111111111111" "Admin")
  = ["arn"; "aws-cn"; "iam"; EmptyString; "111111111111"; "role/Admin"].
Proof.
  assert (Hp : contains ":" "aws-cn" = false) by reflexivity.
  destruct (role_arn_splits_back "aws-cn" "111111111111" "Admin" Hp)
    as [Hall _].
  apply Hall; reflexivity.
Defined.

Lemma partition_is_the_second_field_witness :
  result_of (get_partition Sim.account1) = Return "aws".
Proof.
  assert (Hid : sts_get_caller_identity DefaultSession Sim.account1
                = (Return Sim.caller, Sim.account1)) by reflexivity.
  destruct (partition_is_the_second_field _ _ _ Hid) as (_ & _ & _ & _ & Hp).
  apply (Hp "arn" "aws" "sts::999999999999:assumed-role/Ops/me");
    [reflexivity | reflexivity | right; reflexivity].
Defined.

(** ** Entry points *)

Section EntryPoints.
Context {W : Type} `{Services W}.
Variable environ : Environ.

(** X14: an event from which no account id can be read is rejected
    before anything is called: [lambda_handler] raises the exception of
    the extraction, leaves the world as it is, and has logged the event
    only. *)
Theorem rejected_event_makes_no_call :
  forall (event context : Value) (w : W) (e : Exn),
    get_account_id event = Raise e ->
    lambda_handler environ event context w =
    (Raise e, w, [Log DEBUG [Lit "AWS Event:"; PVal event]]).
Proof.
  intros event context w e Hacct.
  unfold lambda_handler, bind, log, lift. now rewrite Hacct.
Qed.

(** X15: when the partition cannot be determined (the identity call
    raises, or the caller ARN holds no ":"), neither entry point goes on:
    the exception leaves it unchanged, no role is assumed and no
    CloudTrail or S3 call is made. *)
Theorem no_partition_no_role :
  forall (w w1 : W) (e : Exn) t,
    get_partition w = (Raise e, w1, t) ->
    t = [Api (GetCallerIdentity DefaultSession)] /\
    (forall event context account_id,
       get_account_id event = Return account_id ->
       lambda_handler environ event context w =
       (Raise e, w1, Log DEBUG [Lit "AWS Event:"; PVal event] :: t)) /\
    (forall target_account_id assume_role_arn name,
       name <> EmptyString ->
       cli_main environ target_account_id assume_role_arn (Some name) w =
       (Raise e, w1,
        Log DEBUG [ Lit "CLI - target_account_id="; PStr target_account_id;
                    Lit " assume_role_arn="; POpt assume_role_arn;
                    Lit " assume_role_name="; POpt (Some name) ] :: t)).
Proof.
  intros w w1 e t Hpart. split; [|split].
  - revert Hpart. unfold get_partition, bind, invoke, lift.
    destruct (sts_get_caller_identity DefaultSession w) as [[arn|e'] w'].
    + destruct (list_getitem (split ":" arn) 1); intro E;
        now injection E as _ _ <-.
    + intro E. now injection E as _ _ <-.
  - intros event context account_id Hacct. unfold lambda_handler.
    rewrite (bind_return _ _ w tt w [Log DEBUG [Lit "AWS Event:"; PVal event]])
      by reflexivity.
    rewrite (bind_return _ _ w account_id w [])
      by (unfold lift; now rewrite Hacct).
    now rewrite (bind_raise _ _ _ _ _ _ Hpart).
  - intros target arn0 name Hname.
    assert (Htruthy : truthy (Some name) = true)
      by (destruct name; [now destruct Hname | reflexivity]).
    unfold cli_main. rewrite Htruthy.
    rewrite (bind_return _ _ w tt w
               [Log DEBUG [ Lit "CLI - target_account_id="; PStr target;
                            Lit " assume_role_arn="; POpt arn0;
                            Lit " assume_role_name="; POpt (Some name) ]])
      by reflexivity.
    assert (Harn :
      (partition <- get_partition ;;
       log INFO [ Lit "assume_role_arn for provided role name is '";
                  PStr (role_arn_of partition target name); Lit "'" ] ;;
       ret (Some (role_arn_of partition target name)))%prog w
      = (Raise e, w1, t))
      by (now rewrite (bind_raise _ _ _ _ _ _ Hpart)).
    now rewrite (bind_raise _ _ _ _ _ _ Harn).
Qed.

(** X16: without a role name ([--assume-role-name] absent or empty),
    [cli_main] looks up no partition and hands the given
    [--assume-role-arn] to [main] as it is: that value, even [None], is
    the one role ARN passed to [assume_role]. *)
Theorem explicit_role_arn_is_passed_on :
  forall (target_account_id : string) (assume_role_arn name : option string)
         (w w1 : W) (identity : string),
    name = None \/ name = Some EmptyString ->
    sts_get_caller_identity SESSION w = (Return identity, w1) ->
    cli_main environ target_account_id assume_role_arn name w =
      (result_of (main environ target_account_id assume_role_arn w),
       world_of (main environ target_account_id assume_role_arn w),
       Log DEBUG [ Lit "CLI - target_account_id="; PStr target_account_id;
                   Lit " assume_role_arn="; POpt assume_role_arn;
                   Lit " assume_role_name="; POpt name ]
       :: events_of (main environ target_account_id assume_role_arn w)) /\
    assumed_roles
      (events_of (cli_main environ target_account_id assume_role_arn name w))
    = [assume_role_arn].
Proof.
  intros target arn0 name w w1 identity Hname Hmain.
  assert (Hcli :
    cli_main environ target arn0 name w =
      (result_of (main environ target arn0 w),
       world_of (main environ target arn0 w),
       Log DEBUG [ Lit "CLI - target_account_id="; PStr target;
                   Lit " assume_role_arn="; POpt arn0;
                   Lit " assume_role_name="; POpt name ]
       :: events_of (main environ target arn0 w))).
  { unfold cli_main.
    rewrite (bind_return _ _ w tt w
               [Log DEBUG [ Lit "CLI - target_account_id="; PStr target;
                            Lit " assume_role_arn="; POpt arn0;
                            Lit " assume_role_name="; POpt name ]])
      by reflexivity.
    destruct Hname as [-> | ->];
      now rewrite (bind_return _ _ w arn0 w []) by reflexivity. }
  split; [exact Hcli|]. rewrite Hcli. unfold events_of at 1. simpl snd.
  simpl assumed_roles. unfold main.
  rewrite (assumed_roles_bind_return _ _ w identity w1
             [Api (GetCallerIdentity SESSION)])
    by (unfold invoke; now rewrite Hmain).
  rewrite (assumed_roles_bind_return _ _ w1 tt w1
             [Log DEBUG [Lit "Main identity is "; PStr identity]])
    by reflexivity.
  rewrite assumed_roles_bind_quiet_tail
    by (intros; now destruct (DRY_RUN environ)).
  now rewrite resources_assume_once.
Qed.

End EntryPoints.

(** X17: the fields an event must carry.  An event that is no dict, or
    whose ["detail"] is no dict, raises [TypeError]; a missing ["detail"],
    ["eventName"], or first field of the path of the event's kind raises
    [KeyError] naming that key. *)
Theorem missing_event_fields_raise :
  forall event : Value,
    ((forall items, event <> VDict items) ->
       get_account_id event = Raise TypeError) /\
    (forall items,
       event = VDict items ->
       (assoc "detail" items = None ->
          get_account_id event = Raise (KeyError (VStr "detail"))) /\
       (forall detail,
          assoc "detail" items = Some detail ->
          ((forall fields, detail <> VDict fields) ->
             get_account_id event = Raise TypeError) /\
          (forall fields,
             detail = VDict fields ->
             (assoc "eventName" fields = None ->
                get_account_id event = Raise (KeyError (VStr "eventName"))) /\
             (assoc "eventName" fields = Some (VStr "CreateAccountResult") ->
              assoc "serviceEventDetails" fields = None ->
                get_account_id event
                = Raise (KeyError (VStr "serviceEventDetails"))) /\
             (assoc "eventName" fields
                = Some (VStr "InviteAccountToOrganization") ->
              assoc "requestParameters" fields = None ->
                get_account_id event
                = Raise (KeyError (VStr "requestParameters")))))).
Proof.
  intro event. split.
  - intro Hnodict. destruct event; try reflexivity. now destruct (Hnodict items).
  - intros items ->. split.
    + intro Hnone. unfold get_account_id. simpl. now rewrite Hnone.
    + intros detail Hdetail. split.
      * intro Hnodict. unfold get_account_id. simpl. rewrite Hdetail. simpl.
        destruct detail; try reflexivity. now destruct (Hnodict items0).
      * intros fields ->. split; [|split].
        -- intro Hnone. unfold get_account_id. simpl. rewrite Hdetail. simpl.
           now rewrite Hnone.
        -- intros Hname Hnone. unfold get_account_id. simpl.
           rewrite Hdetail. simpl. rewrite Hname. simpl.
           unfold get_new_account_id. simpl. rewrite Hdetail. simpl.
           now rewrite Hnone.
        -- intros Hname Hnone. unfold get_account_id. simpl.
           rewrite Hdetail. simpl. rewrite Hname. simpl.
           unfold get_invite_account_id. simpl. rewrite Hdetail. simpl.
           now rewrite Hnone.
Qed.

Lemma rejected_event_makes_no_call_witness :
  lambda_handler Sim.live
    (VDict [("detail", VDict [("eventName", VStr "CloseAccount")])])
    VNone Sim.account1
  = (Raise (KeyError (VStr "CloseAccount")), Sim.account1,
     [Log DEBUG
        [Lit "AWS Event:";
         PVal (VDict [("detail",
                       VDict [("eventName", VStr "CloseAccount")])])]]).
Proof.
  apply rejected_event_makes_no_call. reflexivity.
Defined.

Lemma no_partition_no_role_witness :
  lambda_handler Sim.live created_event VNone tt
  = (Raise (BotoCoreError "EndpointConnectionError"), tt,
     [Log DEBUG [Lit "AWS Event:"; PVal created_event];
      Api (GetCallerIdentity DefaultSession)]).
Proof.
  assert (Hpart : get_partition tt
                  = (Raise (BotoCoreError "EndpointConnectionError"), tt,
                     [Api (GetCallerIdentity DefaultSession)]))
    by reflexivity.
  destruct (no_partition_no_role Sim.live tt tt _ _ Hpart) as (_ & Hevent & _).
  apply (Hevent created_event VNone (VStr "111111111111")). reflexivity.
Defined.

Lemma explicit_role_arn_is_passed_on_witness :
  assumed_roles
    (events_of (cli_main Sim.dry "111111111111" Sim.role None Sim.account1))
  = [Sim.role].
Proof.
  assert (Hname : @None string = None \/ @None string = Some EmptyString)
    by (now left).
  assert (Hmain : sts_get_caller_identity SESSION Sim.account1
                  = (Return Sim.caller, Sim.account1)) by reflexivity.
  exact (proj2 (explicit_role_arn_is_passed_on Sim.dry "111111111111"
                  Sim.role None _ _ _ Hname Hmain)).
Defined.

(** ** A whole live run against the simulated account *)

Lemma assoc_put_bucket_other b b' keys bs :
  b' <> b -> assoc b' (Sim.put_bucket b keys bs) = assoc b' bs.
Proof.
  intro Hne. induction bs as [|[b0 ks] bs IH]; simpl; [reflexivity|].
  destruct (String.eqb_spec b b0) as [<- | Hb]; simpl.
  - apply String.eqb_neq in Hne. now rewrite Hne.
  - now rewrite IH.
Qed.

Lemma put_bucket_names b keys bs :
  map fst (Sim.put_bucket b keys bs) = map fst bs.
Proof.
  induction bs as [|[b0 ks] bs IH]; simpl; [reflexivity|].
  destruct (String.eqb b b0); simpl; [reflexivity | now rewrite IH].
Qed.

Lemma assoc_drop_bucket_other b b' bs :
  b' <> b -> assoc b' (Sim.drop_bucket b bs) = assoc b' bs.
Proof.
  intro Hne. induction bs as [|[b0 ks] bs IH]; simpl; [reflexivity|].
  destruct (String.eqb_spec b b0) as [<- | Hb]; simpl.
  - apply String.eqb_neq in Hne. now rewrite Hne.
  - now rewrite IH.
Qed.

Lemma assoc_absent_name {A} b (bs : list (string * A)) :
  ~ In b (map fst bs) -> assoc b bs = None.
Proof.
  induction bs as [|[b0 ks] bs IH]; simpl; intro Hb; [reflexivity|].
  destruct (String.eqb_spec b b0) as [-> | Hne].
  - destruct Hb. now left.
  - apply IH. intro Hin. apply Hb. now right.
Qed.

Lemma assoc_drop_bucket_same b bs :
  NoDup (map fst bs) -> assoc b (Sim.drop_bucket b bs) = None.
Proof.
  induction bs as [|[b0 ks] bs IH]; simpl; intro Hnd; [reflexivity|].
  apply NoDup_cons_iff in Hnd as [Hb0 Hnd].
  destruct (String.eqb_spec b b0) as [-> | Hne]; simpl.
  - now apply assoc_absent_name.
  - apply String.eqb_neq in Hne. rewrite Hne. now apply IH.
Qed.

Lemma sim_delete_page_world bucket c (page : list string) :
  forall (w : Sim.Account) (keys : list string),
    Sim.denied w = [] ->
    assoc bucket (Sim.buckets w) = Some keys ->
    exists bs',
      for_each (map mkObject page)
        (fun obj => invoke (DeleteObject bucket (Key obj))
                           (s3_delete_object c bucket (Key obj))) w
      = (Return tt, Sim.with_buckets w bs',
         map (fun k => Api (DeleteObject bucket k)) page) /\
      assoc bucket bs' =
        Some (fold_left (fun acc k => Sim.remove_key k acc) page keys) /\
      map fst bs' = map fst (Sim.buckets w) /\
      (forall b', b' <> bucket -> assoc b' bs' = assoc b' (Sim.buckets w)).
Proof.
  induction page as [|k page IH]; intros w keys Hd Hb.
  - exists (Sim.buckets w). simpl. split; [now destruct w|]. now repeat split.
  - assert (Estep :
      invoke (DeleteObject bucket k) (s3_delete_object c bucket k) w =
      (Return tt,
       Sim.with_buckets w
         (Sim.put_bucket bucket (Sim.remove_key k keys) (Sim.buckets w)),
       [Api (DeleteObject bucket k)])).
    { unfold invoke. simpl. unfold Sim.delete_object.
      now rewrite (unrestricted_guard _ _ _ Hd), Hb. }
    destruct (IH (Sim.with_buckets w
                    (Sim.put_bucket bucket (Sim.remove_key k keys)
                                    (Sim.buckets w)))
                 (Sim.remove_key k keys) Hd
                 (assoc_put_bucket _ _ _ _ Hb))
      as (bs' & Hrun & Hk & Hnames & Hframe).
    exists bs'. cbn [for_each map].
    rewrite (bind_return _ _ _ _ _ _ Estep). cbv beta. rewrite Hrun.
    split; [reflexivity|]. split; [exact Hk|]. split.
    + rewrite Hnames. simpl. apply put_bucket_names.
    + intros b' Hne. rewrite (Hframe b' Hne). simpl.
      now apply assoc_put_bucket_other.
Qed.

Lemma sim_delete_s3_bucket_all bucket c (w : Sim.Account) k keys :
  Sim.denied w = [] ->
  assoc bucket (Sim.buckets w) = Some (k :: keys) ->
  NoDup (k :: keys) ->
  length (k :: keys) <= Sim.page_size w ->
  NoDup (map fst (Sim.buckets w)) ->
  exists bs',
    result_of (delete_s3_bucket bucket c w) = Return tt /\
    world_of (delete_s3_bucket bucket c w) = Sim.with_buckets w bs' /\
    api_calls (events_of (delete_s3_bucket bucket c w)) =
      ListObjectsV2 bucket :: map (DeleteObject bucket) (k :: keys)
      ++ [DeleteBucket bucket] /\
    assoc bucket bs' = None /\
    (forall b', b' <> bucket -> assoc b' bs' = assoc b' (Sim.buckets w)).
Proof.
  intros Hd Hb Hnd Hlen Hnames.
  assert (Hpage : firstn (Sim.page_size w) (k :: keys) = k :: keys)
    by (now apply firstn_all2).
  assert (Elist :
    invoke (ListObjectsV2 bucket) (s3_list_objects_v2 c bucket) w =
    (Return (mkListObjects (Some (map mkObject (k :: keys)))), w,
     [Api (ListObjectsV2 bucket)])).
  { unfold invoke. simpl s3_list_objects_v2. unfold Sim.list_objects_v2.
    now rewrite (unrestricted_guard _ _ _ Hd), Hb, Hpage. }
  destruct (sim_delete_page_world bucket c (k :: keys) w (k :: keys) Hd Hb)
    as (bs1 & Hloop & Hleft & Hnames1 & Hframe1).
  assert (Hempty : fold_left (fun acc k0 => Sim.remove_key k0 acc)
                             (k :: keys) (k :: keys) = []).
  { pose proof (remove_keys_of_page (k :: keys) []) as Hr.
    rewrite app_nil_r in Hr. now apply Hr. }
  rewrite Hempty in Hleft.
  assert (Edel :
    invoke (DeleteBucket bucket) (s3_delete_bucket c bucket)
           (Sim.with_buckets w bs1)
    = (Return tt, Sim.with_buckets w (Sim.drop_bucket bucket bs1),
       [Api (DeleteBucket bucket)])).
  { unfold invoke. simpl s3_delete_bucket. unfold Sim.delete_bucket.
    rewrite (unrestricted_guard _ (Sim.with_buckets w bs1) _ Hd).
    simpl Sim.buckets. now rewrite Hleft. }
  exists (Sim.drop_bucket bucket bs1).
  assert (Hobjs :
    delete_s3_objects bucket c w
    = (Return tt, Sim.with_buckets w bs1,
       [Api (ListObjectsV2 bucket)] ++
       [] ++ map (fun k0 => Api (DeleteObject bucket k0)) (k :: keys) ++
       [Log DEBUG [ Lit "All objects from s3 bucket "; PStr bucket;
                    Lit " have been deleted." ]])).
  { unfold delete_s3_objects.
    rewrite (bind_return _ _ _ _ _ _ Elist). cbv beta. simpl Contents.
    rewrite (bind_return _ _ w (map mkObject (k :: keys)) w [])
      by reflexivity.
    cbv beta. rewrite (bind_return _ _ _ _ _ _ Hloop). reflexivity. }
  unfold delete_s3_bucket.
  rewrite (bind_return _ _ _ _ _ _ Hobjs). cbv beta.
  rewrite (bind_return _ _ _ _ _ _ Edel).
  unfold result_of, world_of, events_of. simpl fst. simpl snd.
  split; [reflexivity|]. split; [reflexivity|]. split.
  - simpl. f_equal. f_equal.
    rewrite !api_calls_app, api_calls_of_deletions. simpl.
    now rewrite app_nil_r.
  - split.
    + apply assoc_drop_bucket_same. now rewrite Hnames1.
    + intros b' Hne. rewrite (assoc_drop_bucket_other _ _ _ Hne).
      now apply Hframe1.
Qed.

Lemma sim_lookups_keep_world : @lookups_keep_world Sim.Account _.
Proof.
  repeat split.
  - intros [|[arn|] n] w; simpl; [reflexivity| |reflexivity].
    unfold Sim.guard. now destruct (Sim.refused _ w).
  - intros c w. simpl. unfold Sim.describe_trails, Sim.guard.
    now destruct (Sim.refused _ w).
  - intros c n w. simpl. unfold Sim.get_trail, Sim.guard.
    destruct (Sim.refused _ w); [reflexivity|].
    now destruct (find _ _).
Qed.

Lemma sim_resolution environ c P (w w' : Sim.Account) d evs :
  get_cloudtrail environ c P w = (Return (Some d), w', evs) ->
  w' = w /\
  exists t,
    matching P (Sim.trails w) = [t] /\
    find (Sim.names_trail (Name t)) (Sim.trails w) = Some (Trail d).
Proof.
  intro Hrun.
  assert (Hw : w' = w).
  { pose proof (get_cloudtrail_keeps_world environ c P w
                  sim_lookups_keep_world) as Hk.
    now rewrite Hrun in Hk. }
  split; [exact Hw|].
  destruct (cloudtrail_describe_trails c w) as [[T|e] w1] eqn:E.
  - assert (HT : T = Sim.trails w).
    { simpl in E. unfold Sim.describe_trails, Sim.guard in E.
      destruct (Sim.refused _ w); [discriminate|]. now injection E as <- _. }
    subst T.
    destruct (matching P (Sim.trails w)) as [|t [|t' rest]] eqn:Em.
    + rewrite (get_cloudtrail_none environ _ _ _ _ _ E Em) in Hrun.
      destruct (ERROR_NOT_FOUND environ); discriminate.
    + rewrite (get_cloudtrail_single environ _ _ _ _ _ _ E Em) in Hrun.
      exists t. split; [reflexivity|].
      destruct (cloudtrail_get_trail c (Name t) w1) as [[d'|e] w2] eqn:Eg.
      * injection Hrun as <- _ _.
        simpl in Eg. unfold Sim.get_trail, Sim.guard in Eg.
        destruct (Sim.refused _ w1); [discriminate|].
        assert (Hw1 : w1 = w).
        { simpl in E. unfold Sim.describe_trails, Sim.guard in E.
          destruct (Sim.refused _ w); [discriminate|].
          now injection E as <-. }
        subst w1.
        destruct (find (Sim.names_trail (Name t)) (Sim.trails w));
          [|discriminate].
        now injection Eg as <- _.
      * destruct e; discriminate.
    + rewrite (get_cloudtrail_multiple environ _ _ _ _ _ E) in Hrun
        by (rewrite Em; simpl; lia).
      discriminate.
  - rewrite (get_cloudtrail_listing_fails environ _ _ _ _ _ E) in Hrun.
    destruct e; discriminate.
Qed.

Lemma sim_delete_cloudtrail c (w : Sim.Account) (t : TrailInfo) :
  Sim.denied w = [] -> In t (Sim.trails w) ->
  delete_cloudtrail (TrailARN t) c w =
  (Return tt,
   Sim.with_trails w
     (filter (fun t' => negb (Sim.names_trail (TrailARN t) t'))
             (Sim.trails w)),
   [ Api (StopLogging (TrailARN t)); Api (DeleteTrail (TrailARN t));
     Log DEBUG [ Lit "Cloudtrail "; PStr (TrailARN t);
                 Lit " has been deleted." ] ]).
Proof.
  intros Hd Hin.
  assert (Hfound : exists t0,
            find (Sim.names_trail (TrailARN t)) (Sim.trails w) = Some t0).
  { destruct (find (Sim.names_trail (TrailARN t)) (Sim.trails w)) as [t0|] eqn:Ef;
      [now exists t0|].
    pose proof (find_none _ _ Ef t Hin) as Hno.
    unfold Sim.names_trail in Hno. rewrite String.eqb_refl in Hno.
    now rewrite Bool.orb_true_r in Hno. }
  destruct Hfound as [t0 Hfound].
  unfold delete_cloudtrail, bind, invoke, log. simpl.
  unfold Sim.stop_logging, Sim.delete_trail.
  rewrite (unrestricted_guard "StopLogging" _ _ Hd), Hfound.
  cbv beta iota.
  rewrite (unrestricted_guard "DeleteTrail" _ _ Hd), Hfound.
  reflexivity.
Qed.

Lemma mutating_object_deletions bucket (keys : list string) :
  filter is_mutating (map (DeleteObject bucket) keys)
  = map (DeleteObject bucket) keys.
Proof. induction keys as [|k keys IH]; simpl; [reflexivity | now rewrite IH]. Qed.

Lemma sim_clients_do_not_depend environ role acct (w w' : Sim.Account) :
  Sim.denied w' = Sim.denied w ->
  result_of (get_boto3_clients environ role acct w')
    = result_of (get_boto3_clients environ role acct w) /\
  events_of (get_boto3_clients environ role acct w')
    = events_of (get_boto3_clients environ role acct w).
Proof.
  intro Hd.
  unfold get_boto3_clients, get_assumed_role_session, bind, invoke, log, ret.
  simpl. destruct role as [arn|]; simpl; [|now split].
  unfold Sim.guard, Sim.refused. rewrite Hd.
  now destruct (existsb _ (Sim.denied w)).
Qed.

(** What a live run does to the simulated account when the bucket of the
    resolved trail holds between one key and a page of keys. *)
Lemma sim_live_run environ role acct (w : Sim.Account)
    clients w1 e1 cloudtrail w2 e2 k keys :
  DRY_RUN environ = false ->
  Sim.denied w = [] ->
  get_boto3_clients environ role acct w = (Return clients, w1, e1) ->
  get_cloudtrail environ (fst clients) (CLOUDTRAIL_NAME_PREFIX environ) w1
    = (Return (Some cloudtrail), w2, e2) ->
  assoc (S3BucketName (Trail cloudtrail)) (Sim.buckets w) = Some (k :: keys) ->
  NoDup (k :: keys) ->
  length (k :: keys) <= Sim.page_size w ->
  NoDup (map fst (Sim.buckets w)) ->
  let arn := TrailARN (Trail cloudtrail) in
  let bucket := S3BucketName (Trail cloudtrail) in
  let run := delete_cloudtrail_resources environ role acct w in
  result_of run = Return tt /\
  mutating_calls (events_of run) = deletion_script arn bucket (k :: keys) /\
  Sim.trails (world_of run) =
    filter (fun t => negb (Sim.names_trail arn t)) (Sim.trails w) /\
  Sim.denied (world_of run) = [] /\
  assoc bucket (Sim.buckets (world_of run)) = None /\
  (forall b', b' <> bucket ->
     assoc b' (Sim.buckets (world_of run)) = assoc b' (Sim.buckets w)) /\
  matching (CLOUDTRAIL_NAME_PREFIX environ) (Sim.trails (world_of run)) = [].
Proof.
  intros Hlive Hd E1 E2 Hb Hnd Hlen Hnames arn bucket run.
  assert (Hw1 : w1 = w).
  { pose proof (get_boto3_clients_keeps_world environ role acct w
                  sim_lookups_keep_world) as Hk.
    now rewrite E1 in Hk. }
  subst w1.
  destruct (sim_resolution _ _ _ _ _ _ _ E2) as (-> & t & Hone & Hfind).
  assert (Hin : In (Trail cloudtrail) (Sim.trails w))
    by (now apply find_some in Hfind).
  destruct (resolved_lookups_quiet environ _ _ _ _ _ _ _ _ _ E1 E2)
    as (Hq1 & Hq2 & _ & _).
  pose proof (sim_delete_cloudtrail (fst clients) w _ Hd Hin) as Htrail.
  fold arn in Htrail.
  set (w3 := Sim.with_trails w
               (filter (fun t' => negb (Sim.names_trail arn t'))
                       (Sim.trails w))) in *.
  destruct (sim_delete_s3_bucket_all bucket (snd clients) w3 k keys
              Hd Hb Hnd Hlen Hnames)
    as (bs' & Hres & Hworld & Hcalls & Hgone & Hframe).
  assert (Hrun : run =
    (Return tt, Sim.with_buckets w3 bs',
     e1 ++ e2 ++
     ([ Api (StopLogging arn); Api (DeleteTrail arn);
        Log DEBUG [ Lit "Cloudtrail "; PStr arn; Lit " has been deleted." ] ]
      ++ events_of (delete_s3_bucket bucket (snd clients) w3)))).
  { unfold run.
    rewrite (resources_resolved environ _ _ _ _ _ _ _ _ _ E1 E2), Hlive.
    cbv zeta. fold arn. fold bucket.
    rewrite (bind_return _ _ _ _ _ _ Htrail). cbv beta.
    unfold result_of at 1, world_of at 1, events_of at 1.
    simpl fst. simpl snd. now rewrite Hres, Hworld. }
  rewrite Hrun. unfold result_of, world_of, events_of.
  simpl fst. simpl snd.
  split; [reflexivity|]. split.
  { rewrite !mutating_calls_app, Hq1, Hq2. simpl app.
    unfold mutating_calls. simpl api_calls.
    unfold events_of in Hcalls. rewrite Hcalls. simpl filter.
    unfold deletion_script. f_equal. f_equal. f_equal.
    rewrite filter_app, mutating_object_deletions. reflexivity. }
  split; [reflexivity|]. split; [exact Hd|]. split; [exact Hgone|].
  split; [exact Hframe|].
  simpl Sim.trails. unfold matching.
  destruct (filter _ (filter _ (Sim.trails w))) as [|x xs] eqn:Ef;
    [reflexivity|].
  assert (Hx : In x (filter (fun t0 => startswith (Name t0)
                                         (CLOUDTRAIL_NAME_PREFIX environ))
                       (filter (fun t' => negb (Sim.names_trail arn t'))
                               (Sim.trails w))))
    by (rewrite Ef; now left).
  apply filter_In in Hx as [Hx Hpre]. apply filter_In in Hx as [Hx Hkept].
  assert (Hxt : x = t).
  { assert (Hm : In x (matching (CLOUDTRAIL_NAME_PREFIX environ)
                                (Sim.trails w)))
      by (unfold matching; apply filter_In; now split).
    rewrite Hone in Hm. now destruct Hm as [<- | []]. }
  subst x. exfalso.
  apply find_some in Hfind as [_ Hnamed].
  unfold Sim.names_trail in Hnamed, Hkept. fold arn in Hnamed.
  apply Bool.orb_true_iff in Hnamed as [Hname | Harn].
  - apply String.eqb_eq in Hname.
    assert (Hd_in : In (Trail cloudtrail)
                       (matching (CLOUDTRAIL_NAME_PREFIX environ)
                                 (Sim.trails w))).
    { unfold matching. apply filter_In. split; [exact Hin|].
      now rewrite Hname. }
    rewrite Hone in Hd_in. destruct Hd_in as [Ht | []].
    unfold arn in Hkept. rewrite <- Ht in Hkept.
    rewrite (String.eqb_refl (TrailARN t)) in Hkept.
    now rewrite Bool.orb_true_r in Hkept.
  - apply String.eqb_eq in Harn. rewrite <- Harn in Hkept.
    now rewrite String.eqb_refl in Hkept.
Qed.

(** X18: on the simulated account, with nothing refused, a live run whose
    resolved trail has a bucket of at least one key and at most a page of
    keys (each key once) returns; its mutating calls are the whole
    deletion script; afterwards the trail is gone and every trail not
    named by its ARN is still there, the bucket is gone, and every other
    bucket holds what it held. *)
Theorem live_run_removes_trail_and_bucket :
  forall environ role acct (w : Sim.Account)
         clients w1 e1 cloudtrail w2 e2 keys,
    DRY_RUN environ = false ->
    Sim.denied w = [] ->
    get_boto3_clients environ role acct w = (Return clients, w1, e1) ->
    get_cloudtrail environ (fst clients) (CLOUDTRAIL_NAME_PREFIX environ) w1
      = (Return (Some cloudtrail), w2, e2) ->
    assoc (S3BucketName (Trail cloudtrail)) (Sim.buckets w) = Some keys ->
    keys <> [] -> NoDup keys -> length keys <= Sim.page_size w ->
    NoDup (map fst (Sim.buckets w)) ->
    let arn := TrailARN (Trail cloudtrail) in
    let bucket := S3BucketName (Trail cloudtrail) in
    let run := delete_cloudtrail_resources environ role acct w in
    result_of run = Return tt /\
    mutating_calls (events_of run) = deletion_script arn bucket keys /\
    Sim.trails (world_of run) =
      filter (fun t => negb (Sim.names_trail arn t)) (Sim.trails w) /\
    ~ In (Trail cloudtrail) (Sim.trails (world_of run)) /\
    assoc bucket (Sim.buckets (world_of run)) = None /\
    (forall b', b' <> bucket ->
       assoc b' (Sim.buckets (world_of run)) = assoc b' (Sim.buckets w)).
Proof.
  intros environ role acct w clients w1 e1 cloudtrail w2 e2 keys
         Hlive Hd E1 E2 Hb Hsome Hnd Hlen Hnames arn bucket run.
  destruct keys as [|k keys]; [now destruct Hsome|].
  destruct (sim_live_run environ role acct w clients w1 e1 cloudtrail w2 e2
              k keys Hlive Hd E1 E2 Hb Hnd Hlen Hnames)
    as (Hres & Hcalls & Htrails & _ & Hgone & Hframe & _).
  fold arn in Hcalls, Htrails. fold bucket in Hcalls, Hgone, Hframe.
  fold run in Hres, Hcalls, Htrails, Hgone, Hframe.
  repeat split; try assumption.
  rewrite Htrails. intro Hin. apply filter_In in Hin as [_ Hkept].
  unfold Sim.names_trail, arn in Hkept.
  rewrite (String.eqb_refl (TrailARN (Trail cloudtrail))) in Hkept.
  now rewrite Bool.orb_true_r in Hkept.
Qed.

(** X19: a live run is not repeatable.  On the simulated account, after
    the run of X18 a second run with the same settings finds no matching
    trail: it makes no mutating call, leaves the account as it is, and
    raises [NoCloudtrailsFoundError] unless ERROR_NOT_FOUND is false, in
    which case it returns. *)
Theorem second_live_run_finds_no_trail :
  forall environ role acct (w : Sim.Account)
         clients w1 e1 cloudtrail w2 e2 keys,
    DRY_RUN environ = false ->
    Sim.denied w = [] ->
    get_boto3_clients environ role acct w = (Return clients, w1, e1) ->
    get_cloudtrail environ (fst clients) (CLOUDTRAIL_NAME_PREFIX environ) w1
      = (Return (Some cloudtrail), w2, e2) ->
    assoc (S3BucketName (Trail cloudtrail)) (Sim.buckets w) = Some keys ->
    keys <> [] -> NoDup keys -> length keys <= Sim.page_size w ->
    NoDup (map fst (Sim.buckets w)) ->
    let after := world_of (delete_cloudtrail_resources environ role acct w) in
    let again := delete_cloudtrail_resources environ role acct after in
    result_of again =
      (if ERROR_NOT_FOUND environ
       then Raise (NoCloudtrailsFoundError
                     (none_found_error (CLOUDTRAIL_NAME_PREFIX environ)))
       else Return tt) /\
    mutating_calls (events_of again) = [] /\
    world_of again = after.
Proof.
  intros environ role acct w clients w1 e1 cloudtrail w2 e2 keys
         Hlive Hd E1 E2 Hb Hsome Hnd Hlen Hnames after again.
  destruct keys as [|k keys]; [now destruct Hsome|].
  destruct (sim_live_run environ role acct w clients w1 e1 cloudtrail w2 e2
              k keys Hlive Hd E1 E2 Hb Hnd Hlen Hnames)
    as (_ & _ & _ & Hd' & _ & _ & Hnone).
  fold after in Hd', Hnone.
  assert (E1' : get_boto3_clients environ role acct after
                = (Return clients, after, e1)).
  { destruct (sim_clients_do_not_depend environ role acct w after)
      as [Hr He]; [now rewrite Hd', Hd|].
    pose proof (get_boto3_clients_keeps_world environ role acct after
                  sim_lookups_keep_world) as Hk.
    rewrite E1 in Hr, He.
    destruct (get_boto3_clients environ role acct after) as [[r w'] t].
    unfold result_of, world_of, events_of in *. simpl in *. now subst. }
  assert (Elist : cloudtrail_describe_trails (fst clients) after
                  = (Return (Sim.trails after), after)).
  { simpl. unfold Sim.describe_trails.
    now rewrite (unrestricted_guard _ _ _ Hd'). }
  pose proof (get_cloudtrail_none environ _ _ _ _ _ Elist Hnone) as Hlookup.
  destruct (get_boto3_clients_return environ _ _ _ _ _ _ E1')
    as (s & identity & _ & He1).
  unfold again. destruct (ERROR_NOT_FOUND environ).
  - rewrite (resources_lookup_raises environ _ _ _ _ _ _ _ _ _ E1' Hlookup).
    subst e1. now repeat split.
  - unfold delete_cloudtrail_resources.
    rewrite (bind_return _ _ _ _ _ _ E1'),
            (bind_return _ _ _ _ _ _ Hlookup).
    subst e1. now repeat split.
Qed.

Lemma live_run_removes_trail_and_bucket_witness :
  result_of (delete_cloudtrail_resources Sim.live Sim.role Sim.acct
                                         Sim.account1) = Return tt /\
  Sim.trails (world_of (delete_cloudtrail_resources Sim.live Sim.role
                          Sim.acct Sim.account1)) = [Sim.audit] /\
  assoc "my-trail-bucket"
        (Sim.buckets (world_of (delete_cloudtrail_resources Sim.live Sim.role
                                  Sim.acct Sim.account1))) = None /\
  assoc "audit-bucket"
        (Sim.buckets (world_of (delete_cloudtrail_resources Sim.live Sim.role
                                  Sim.acct Sim.account1))) = Some ["a"].
Proof.
  assert (Hlive : DRY_RUN Sim.live = false) by reflexivity.
  assert (Hd : Sim.denied Sim.account1 = []) by reflexivity.
  evaluated E1 (get_boto3_clients Sim.live Sim.role Sim.acct Sim.account1).
  evaluated E2 (get_cloudtrail Sim.live
                  (client (AssumedSession Sim.role "delete_default_cloudtrail.py")
                          "cloudtrail")
                  (CLOUDTRAIL_NAME_PREFIX Sim.live) Sim.account1).
  assert (Hb : assoc "my-trail-bucket" (Sim.buckets Sim.account1)
               = Some ["key1"; "key2"]) by reflexivity.
  assert (Hsome : ["key1"; "key2"] <> []) by discriminate.
  assert (Hnd : NoDup ["key1"; "key2"]).
  { repeat constructor; simpl; intuition discriminate. }
  assert (Hlen : length ["key1"; "key2"] <= Sim.page_size Sim.account1)
    by (simpl; lia).
  assert (Hnames : NoDup (map fst (Sim.buckets Sim.account1))).
  { repeat constructor; simpl; intuition discriminate. }
  destruct (live_run_removes_trail_and_bucket Sim.live Sim.role Sim.acct
              Sim.account1 _ _ _ _ _ _ _
              Hlive Hd E1 E2 Hb Hsome Hnd Hlen Hnames)
    as (Hres & _ & Htrails & _ & Hgone & Hframe).
  split; [exact Hres|]. split; [rewrite Htrails; reflexivity|].
  split; [exact Hgone|].
  rewrite (Hframe "audit-bucket"); [reflexivity | discriminate].
Defined.

Lemma second_live_run_finds_no_trail_witness :
  result_of
    (delete_cloudtrail_resources Sim.live Sim.role Sim.acct
       (world_of (delete_cloudtrail_resources Sim.live Sim.role Sim.acct
                                              Sim.account1)))
  = Raise (NoCloudtrailsFoundError
             [Lit "No cloudtrail found for prefix "; PStr "cloudtrail-"]).
Proof.
  assert (Hlive : DRY_RUN Sim.live = false) by reflexivity.
  assert (Hd : Sim.denied Sim.account1 = []) by reflexivity.
  evaluated E1 (get_boto3_clients Sim.live Sim.role Sim.acct Sim.account1).
  evaluated E2 (get_cloudtrail Sim.live
                  (client (AssumedSession Sim.role "delete_default_cloudtrail.py")
                          "cloudtrail")
                  (CLOUDTRAIL_NAME_PREFIX Sim.live) Sim.account1).
  assert (Hb : assoc "my-trail-bucket" (Sim.buckets Sim.account1)
               = Some ["key1"; "key2"]) by reflexivity.
  assert (Hsome : ["key1"; "key2"] <> []) by discriminate.
  assert (Hnd : NoDup ["key1"; "key2"]).
  { repeat constructor; simpl; intuition discriminate. }
  assert (Hlen : length ["key1"; "key2"] <= Sim.page_size Sim.account1)
    by (simpl; lia).
  assert (Hnames : NoDup (map fst (Sim.buckets Sim.account1))).
  { repeat constructor; simpl; intuition discriminate. }
  exact (proj1 (second_live_run_finds_no_trail Sim.live Sim.role Sim.acct
                  Sim.account1 _ _ _ _ _ _ _
                  Hlive Hd E1 E2 Hb Hsome Hnd Hlen Hnames)).
Defined.

(** ** What the flags guarantee *)

Section Flags.
Context {W : Type} `{Services W}.

Lemma quiet_bind {A B} (m : M W A) (f : A -> M W B) (w : W) :
  mutating_calls (events_of (m w)) = [] ->
  (forall a w1, mutating_calls (events_of (f a w1)) = []) ->
  mutating_calls (events_of (bind m f w)) = [].
Proof.
  intros Hm Hf. destruct (m w) as [[[a|e] w1] t1] eqn:E;
    unfold events_of in Hm; simpl in Hm.
  - rewrite (bind_return _ _ _ _ _ _ E). unfold events_of at 1. simpl snd.
    now rewrite mutating_calls_app, Hm, Hf.
  - now rewrite (bind_raise _ _ _ _ _ _ E).
Qed.

Lemma quiet_invoke {A} (c : Call) (op : W -> Result A * W) (w : W) :
  is_mutating c = false -> mutating_calls (events_of (invoke c op w)) = [].
Proof.
  intro Hc. unfold invoke. destruct (op w) as [r w1].
  unfold events_of, mutating_calls. simpl. now rewrite Hc.
Qed.

Lemma get_partition_quiet (w : W) :
  mutating_calls (events_of (get_partition w)) = [].
Proof.
  unfold get_partition. apply quiet_bind; [now apply quiet_invoke|].
  intros arn w1. unfold lift. now destruct (list_getitem (split ":" arn) 1).
Qed.

Lemma dry_resources_quiet environ role acct (w : W) :
  DRY_RUN environ = true ->
  mutating_calls
    (events_of (delete_cloudtrail_resources environ role acct w)) = [] /\
  (lookups_keep_world ->
   world_of (delete_cloudtrail_resources environ role acct w) = w).
Proof.
  intro Hdry.
  pose proof (get_boto3_clients_outcomes environ role acct w) as [Hq1 _].
  pose proof (get_boto3_clients_keeps_world environ role acct w) as Hk1.
  destruct (get_boto3_clients environ role acct w)
    as [[[clients|e] w1] e1] eqn:E1;
    unfold events_of in Hq1; simpl in Hq1;
    unfold world_of in Hk1; simpl in Hk1.
  - pose proof (get_cloudtrail_outcomes environ (fst clients)
                  (CLOUDTRAIL_NAME_PREFIX environ) w1) as (Hq2 & _ & _).
    pose proof (get_cloudtrail_keeps_world environ (fst clients)
                  (CLOUDTRAIL_NAME_PREFIX environ) w1) as Hk2.
    destruct (get_cloudtrail environ (fst clients)
                (CLOUDTRAIL_NAME_PREFIX environ) w1)
      as [[[[cloudtrail|]|e] w2] e2] eqn:E2;
      unfold events_of in Hq2; simpl in Hq2;
      unfold world_of in Hk2; simpl in Hk2.
    + rewrite (resources_resolved environ _ _ _ _ _ _ _ _ _ E1 E2), Hdry.
      unfold events_of, world_of. simpl. split.
      * now rewrite !mutating_calls_app, Hq1, Hq2.
      * intro Hkeep. now rewrite (Hk2 Hkeep), (Hk1 Hkeep).
    + unfold delete_cloudtrail_resources.
      rewrite (bind_return _ _ _ _ _ _ E1), (bind_return _ _ _ _ _ _ E2).
      unfold events_of, world_of. simpl. split.
      * now rewrite !mutating_calls_app, Hq1, Hq2.
      * intro Hkeep. now rewrite (Hk2 Hkeep), (Hk1 Hkeep).
    + rewrite (resources_lookup_raises environ _ _ _ _ _ _ _ _ _ E1 E2).
      unfold events_of, world_of. simpl. split.
      * now rewrite mutating_calls_app, Hq1, Hq2.
      * intro Hkeep. now rewrite (Hk2 Hkeep), (Hk1 Hkeep).
  - unfold delete_cloudtrail_resources.
    rewrite (bind_raise _ _ _ _ _ _ E1). unfold events_of, world_of. simpl.
    split; [exact Hq1 | exact Hk1].
Qed.

(** X20: with DRY_RUN true nothing is ever changed.  Whatever the
    services answer, and however the run ends, [delete_cloudtrail_resources],
    [main], [cli_main] and [lambda_handler] make no stop-logging,
    delete-trail, delete-object or delete-bucket call; and when the
    lookups leave the world as it is, so does
    [delete_cloudtrail_resources]. *)
Theorem dry_run_never_mutates :
  forall (environ : Environ) (w : W),
    DRY_RUN environ = true ->
    (forall role acct,
       mutating_calls
         (events_of (delete_cloudtrail_resources environ role acct w)) = []) /\
    (forall target assume_role_arn,
       mutating_calls
         (events_of (main environ target assume_role_arn w)) = []) /\
    (forall target assume_role_arn assume_role_name,
       mutating_calls
         (events_of (cli_main environ target assume_role_arn
                              assume_role_name w)) = []) /\
    (forall event context,
       mutating_calls
         (events_of (lambda_handler environ event context w)) = []) /\
    (lookups_keep_world ->
     forall role acct,
       world_of (delete_cloudtrail_resources environ role acct w) = w).
Proof.
  intros environ w Hdry.
  assert (Hres : forall role acct w0,
    mutating_calls
      (events_of (delete_cloudtrail_resources environ role acct w0)) = [])
    by (intros; now apply dry_resources_quiet).
  assert (Hmain : forall target arn w0,
    mutating_calls (events_of (main environ target arn w0)) = []).
  { intros target arn w0. unfold main.
    apply quiet_bind; [now apply quiet_invoke|]. intros identity w1.
    apply quiet_bind; [reflexivity|]. intros _ w2.
    apply quiet_bind; [apply Hres|]. intros _ w3.
    now destruct (DRY_RUN environ). }
  split; [intros; apply Hres|]. split; [intros; apply Hmain|].
  split; [|split].
  - intros target arn name. unfold cli_main.
    apply quiet_bind; [reflexivity|]. intros _ w1.
    apply quiet_bind; [|intros; apply Hmain].
    destruct name as [name|]; [|reflexivity].
    destruct (truthy (Some name)); [|reflexivity].
    apply quiet_bind; [apply get_partition_quiet|]. intros partition w2.
    apply quiet_bind; reflexivity.
  - intros event context. unfold lambda_handler.
    apply quiet_bind; [reflexivity|]. intros _ w1.
    apply quiet_bind.
    + unfold lift. now destruct (get_account_id event).
    + intros account_id w2.
      apply quiet_bind; [apply get_partition_quiet|]. intros; apply Hres.
  - intros Hkeep role acct. now apply dry_resources_quiet.
Qed.

(** X21: ERROR_NOT_FOUND matters only when nothing matches.  Two
    environments give [get_cloudtrail] the same outcome for a prefix
    unless the listing succeeds and no listed name starts with the
    prefix. *)
Theorem not_found_flag_only_matters_without_match :
  forall (environ environ' : Environ) (c : Client) (P : string) (w : W),
    (forall T w1,
       cloudtrail_describe_trails c w = (Return T, w1) ->
       matching P T <> []) ->
    get_cloudtrail environ c P w = get_cloudtrail environ' c P w.
Proof.
  intros environ environ' c P w Hmatch.
  destruct (cloudtrail_describe_trails c w) as [[T|e] w1] eqn:E.
  - destruct (matching P T) as [|t [|t' rest]] eqn:Em.
    + now destruct (Hmatch T w1 eq_refl).
    + now rewrite !(get_cloudtrail_single _ _ _ _ _ _ _ E Em).
    + now rewrite !(get_cloudtrail_multiple _ _ _ _ _ _ E)
        by (rewrite Em; simpl; lia).
  - now rewrite !(get_cloudtrail_listing_fails _ _ _ _ _ _ E).
Qed.

End Flags.

Lemma dry_run_never_mutates_witness :
  mutating_calls
    (events_of (lambda_handler Sim.dry created_event VNone Sim.account1)) = []
  /\
  world_of (delete_cloudtrail_resources Sim.dry Sim.role Sim.acct
                                        Sim.account_paged)
  = Sim.account_paged.
Proof.
  assert (Hdry : DRY_RUN Sim.dry = true) by reflexivity.
  split.
  - destruct (dry_run_never_mutates Sim.dry Sim.account1 Hdry)
      as (_ & _ & _ & Hevent & _).
    apply Hevent.
  - destruct (dry_run_never_mutates Sim.dry Sim.account_paged Hdry)
      as (_ & _ & _ & _ & Hworld).
    apply Hworld. exact sim_lookups_keep_world.
Defined.

Lemma not_found_flag_only_matters_without_match_witness :
  get_cloudtrail Sim.dry (client DefaultSession "cloudtrail") "cloudtrail-"
                 Sim.account2
  = get_cloudtrail Sim.lenient (client DefaultSession "cloudtrail")
                   "cloudtrail-" Sim.account2.
Proof.
  apply not_found_flag_only_matters_without_match.
  intros T w1 E. simpl in E. injection E as <- _. discriminate.
Defined.
